(** * pm2-prometheus-exporter: the cluster broadcast / reply protocol

    A shallow embedding of [src/pm2-prometheus-exporter.ts].  One pm2
    worker is modelled as a state record holding what the module's closures
    and Node's event emitter hold at run time:

    - the ['message'] listeners of [process], in registration order;
    - one record per call of [awaitAllProcMessagesReplies] (the variables
      its promise executor closes over: [topic], [procLength], [responses],
      [timeoutHandle] and the promise's settlement);
    - the log of [pm2.sendDataToProcessId] calls;
    - the rejections nobody handles.

    The event loop is a step function over events: an inbound message, the
    firing of a call's timer, a new call.  Everything the environment
    decides (what [pm2.list] calls back with, the error the bus reports for
    a send, the metrics JSON of the local registry, [process.env]) is an
    explicit argument.  [timeSyncRun] takes no part in the protocol and is
    left out. *)

From Stdlib Require Import ZArith Lia Ascii String.
From stdpp Require Import base decidable option list strings.

Open Scope string_scope.
Open Scope list_scope.
Open Scope Z_scope.
Open Scope nat_scope.

(** ** Values *)

(** The fragment of JavaScript numbers that process ids range over: the
    integers, and the [NaN] that [parseInt] yields on text without digits. *)
Inductive number :=
| NaN
| Num (z : Z).

(** [if (n)] on a number: [0] and [NaN] are falsy. *)
Definition truthy_number (n : number) : bool :=
  match n with
  | NaN => false
  | Num z => negb (Z.eqb z 0)
  end.

(** Payloads ([data: any]); the protocol never inspects them. *)
#[local] Unset Elimination Schemes.
Inductive JsValue :=
| JsUndefined
| JsNull
| JsBool (b : bool)
| JsNumber (n : number)
| JsString (s : string)
| JsArray (items : list JsValue)
| JsObject (fields : list (string * JsValue)).
#[local] Set Elimination Schemes.

(** What can be thrown or given as a rejection reason: [reject('timeout')]
    passes a string, [new Error(msg)] an error object. *)
Inductive Thrown :=
| ThrownString (s : string)
| ThrownError (message : string).

Inductive Result (A : Type) :=
| Ok (a : A)
| Throw (t : Thrown).
Arguments Ok {A} a.
Arguments Throw {A} t.

Inductive Promise (A : Type) :=
| Pending
| Fulfilled (value : A)
| Rejected (reason : Thrown).
Arguments Pending {A}.
Arguments Fulfilled {A} value.
Arguments Rejected {A} reason.

(** [interface ProcessPacket]; [isReply?] and [replyTo?] are optional. *)
Record ProcessPacket := {
  topic : string;
  id : number;
  data : JsValue;
  isReply : option bool;
  replyTo : option number;
  originalProcId : number
}.

(** [process.env], the three variables the module reads. *)
Module env.
Record t := {
  exec_mode : option string;
  pm_id : option string;
  name : option string
}.
End env.

(** The fields of [pm2.ProcessDescription] the module reads. *)
Record Pm2Env := { status : option string }.

Record ProcessDescription := {
  name : option string;
  pm_id : option number;
  pm2_env : option Pm2Env
}.

(** The registries of prom-client, kept symbolic: [client.register] and the
    result of [client.AggregatorRegistry.aggregate] on a list of metrics. *)
Inductive Registry :=
| client_register
| AggregatorRegistry_aggregate (metrics : list JsValue).

(** ** [parseInt(s, 10)]

    Leading white space is skipped, one sign is accepted, then the longest
    run of decimal digits is read; no digit at all gives [NaN].  (ASCII
    white space only; exact as long as the value fits a double's 53 bits.) *)
Definition is_white_space (c : ascii) : bool :=
  let n := nat_of_ascii c in
  (Nat.leb 9 n && Nat.leb n 13) || Nat.eqb n 32.

Fixpoint skip_white_space (s : string) : string :=
  match s with
  | String c s' => if is_white_space c then skip_white_space s' else s
  | EmptyString => s
  end.

Definition digit_of (c : ascii) : option Z :=
  let n := nat_of_ascii c in
  if Nat.leb 48 n && Nat.leb n 57 then Some (Z.of_nat (n - 48)) else None.

Fixpoint parse_digits (s : string) (acc : option Z) : option Z :=
  match s with
  | String c s' =>
      match digit_of c with
      | Some d => parse_digits s' (Some (10 * default 0%Z acc + d)%Z)
      | None => acc
      end
  | EmptyString => acc
  end.

Definition parseInt (s : string) : number :=
  let s := skip_white_space s in
  let '(sign, digits) :=
    match s with
    | String "-" s' => ((-1)%Z, s')
    | String "+" s' => (1%Z, s')
    | _ => (1%Z, s)
    end in
  match parse_digits digits None with
  | Some n => Num (sign * n)
  | None => NaN
  end.

(** ** Process directory *)

(** [export const isClusterMode = process.env.exec_mode === 'cluster_mode'] *)
Definition isClusterMode (e : env.t) : bool :=
  bool_decide (env.exec_mode e = Some "cluster_mode").

(** [getCurrentProcId]: throws when [process.env.pm_id] is undefined. *)
Definition getCurrentProcId (e : env.t) : Result number :=
  match env.pm_id e with
  | None => Throw (ThrownError "PM2 process id not found")
  | Some s => Ok (parseInt s)
  end.

(** The predicate given to [list.filter] in [getProcList]:
    [o.name === process.env.name && o.pm2_env && o.pm2_env.status === 'online']. *)
Definition same_name_and_online (e : env.t) (o : ProcessDescription) : bool :=
  bool_decide (name o = env.name e) &&
  match pm2_env o with
  | Some pe => bool_decide (status pe = Some "online")
  | None => false
  end.

(** What [pm2.list] hands to its callback: [(err, list)]. *)
Definition ListAnswer : Type := option Thrown * list ProcessDescription.

(** [getProcList]: the promise rejects with [err] when it is set, and
    otherwise resolves with the filtered list. *)
Definition getProcList (e : env.t) (answer : ListAnswer) : Result (list ProcessDescription) :=
  match answer with
  | (Some err, _) => Throw err
  | (None, list) => Ok (List.filter (same_name_and_online e) list)
  end.

(** ** The state of one worker process *)

(** The functions registered on [process]'s ['message'] event: the module's
    [handleProcessMessage], and the [handler] closure of the call numbered
    [r] of [awaitAllProcMessagesReplies]. *)
Inductive Listener :=
| L_handleProcessMessage
| L_handler (r : nat).

Global Instance Listener_eq_dec : EqDecision Listener.
Proof. solve_decision. Defined.

(** [timeoutHandle]: armed by [setTimeout], then either fired or cleared. *)
Inductive TimeoutHandle :=
| Armed (timeoutInMilliseconds : number)
| Fired
| Cleared.

(** What one call of [awaitAllProcMessagesReplies] closes over, from the
    point where [broadcastToAll] has returned. *)
Record Call := {
  call_topic : string;
  procLength : nat;
  responses : list ProcessPacket;
  timeoutHandle : TimeoutHandle;
  promise : Promise (list ProcessPacket)
}.

(** One [pm2.sendDataToProcessId(target, packet, cb)]: the packet as the
    module hands it over, with the error the bus later hands to [cb]. *)
Record Send := {
  target : number;
  packet : ProcessPacket;
  send_err : option Thrown
}.

Record State := {
  listeners : list Listener;
  calls : list Call;
  sent : list Send;
  unhandledRejections : list Thrown
}.

(** The error (if any) the bus reports for a send to a process id. *)
Definition Bus : Type := number -> option Thrown.

Definition with_listeners (ls : list Listener) (st : State) : State :=
  {| listeners := ls; calls := calls st; sent := sent st;
     unhandledRejections := unhandledRejections st |}.

Definition with_calls (cs : list Call) (st : State) : State :=
  {| listeners := listeners st; calls := cs; sent := sent st;
     unhandledRejections := unhandledRejections st |}.

Definition with_sent (ss : list Send) (st : State) : State :=
  {| listeners := listeners st; calls := calls st; sent := ss;
     unhandledRejections := unhandledRejections st |}.

Definition unhandled (t : Thrown) (st : State) : State :=
  {| listeners := listeners st; calls := calls st; sent := sent st;
     unhandledRejections := unhandledRejections st ++ [t] |}.

(** [process.on('message', l)] appends to the listener array. *)
Definition process_on (l : Listener) (st : State) : State :=
  with_listeners (listeners st ++ [l]) st.

(** [process.removeListener('message', l)] takes out one instance of [l],
    the one registered last; the other listeners stay. *)
Fixpoint remove_last (l : Listener) (ls : list Listener) : list Listener :=
  match ls with
  | [] => []
  | l' :: ls' =>
      if bool_decide (l' = l) && negb (bool_decide (l ∈ ls'))
      then ls'
      else l' :: remove_last l ls'
  end.

Definition process_removeListener (l : Listener) (st : State) : State :=
  with_listeners (remove_last l (listeners st)) st.

(** A promise settles once: later [resolve]/[reject] calls do nothing. *)
Definition resolve {A} (v : A) (p : Promise A) : Promise A :=
  match p with
  | Pending => Fulfilled v
  | _ => p
  end.

Definition reject {A} (reason : Thrown) (p : Promise A) : Promise A :=
  match p with
  | Pending => Rejected reason
  | _ => p
  end.

Definition clearTimeout (h : TimeoutHandle) : TimeoutHandle :=
  match h with
  | Armed _ => Cleared
  | _ => h
  end.

(** ** Broadcaster *)

(** The completion callback of every send, [(err) => true]. *)
Definition ignore_err (err : option Thrown) : bool := true.

(** [pm2.sendDataToProcessId]: the send is logged; what [cb] returns is
    dropped by pm2. *)
Definition sendDataToProcessId (bus : Bus) (to : number) (p : ProcessPacket)
    (cb : option Thrown -> bool) (st : State) : State :=
  let _ := cb (bus to) in
  with_sent (sent st ++ [{| target := to; packet := p; send_err := bus to |}]) st.

(** The body of [procList.forEach]: [if (proc.pm_id) { send }]. *)
Definition send_if_pm_id (bus : Bus) (p : ProcessPacket) (st : State)
    (proc : ProcessDescription) : State :=
  match pm_id proc with
  | Some n => if truthy_number n then sendDataToProcessId bus n p ignore_err st else st
  | None => st
  end.

(** [broadcastToAll]: a rejected [getProcList] propagates through the
    [await]; otherwise one send per listed process with a truthy [pm_id],
    and the length of the list as result. *)
Definition broadcastToAll (bus : Bus) (e : env.t) (answer : ListAnswer)
    (p : ProcessPacket) (st : State) : Result (State * nat) :=
  match getProcList e answer with
  | Throw err => Throw err
  | Ok procList => Ok (fold_left (send_if_pm_id bus p) procList st, length procList)
  end.

(** ** Reply correlator *)

(** The promise [awaitAllProcMessagesReplies] returns.  Its executor is an
    [async] function: when it throws (no process id, [pm2.list] failed),
    the rejection belongs to the executor's own discarded promise and the
    returned promise is never settled. *)
Inductive PromiseRef :=
| NeverSettled
| OfCall (r : nat).

Definition promise_of (st : State) (p : PromiseRef) : Promise (list ProcessPacket) :=
  match p with
  | NeverSettled => Pending
  | OfCall r => default Pending (promise <$> calls st !! r)
  end.

Definition update_call (r : nat) (f : Call -> Call) (st : State) : State :=
  with_calls (alter f r (calls st)) st.

Definition push_response (response : ProcessPacket) (c : Call) : Call :=
  {| call_topic := call_topic c; procLength := procLength c;
     responses := responses c ++ [response];
     timeoutHandle := timeoutHandle c; promise := promise c |}.

(** [clearTimeout(timeoutHandle); resolve(responses)] *)
Definition clear_and_resolve (c : Call) : Call :=
  {| call_topic := call_topic c; procLength := procLength c;
     responses := responses c;
     timeoutHandle := clearTimeout (timeoutHandle c);
     promise := resolve (responses c) (promise c) |}.

(** The timer's callback, [() => reject('timeout')]. *)
Definition timed_out (c : Call) : Call :=
  {| call_topic := call_topic c; procLength := procLength c;
     responses := responses c;
     timeoutHandle := Fired;
     promise := reject (ThrownString "timeout") (promise c) |}.

(** [response.isReply] as a condition: [undefined] and [false] are falsy. *)
Definition is_reply (response : ProcessPacket) : bool :=
  match isReply response with
  | Some b => b
  | None => false
  end.

(** The guard of [handler], negated: the packet is kept when
    [response.isReply] is truthy and [response.topic === topic]. *)
Definition matches (topic' : string) (response : ProcessPacket) : bool :=
  negb (negb (is_reply response) || negb (bool_decide (topic response = topic'))).

(** The [handler] closure of call [r]. *)
Definition handler (r : nat) (response : ProcessPacket) (st : State) : State :=
  match calls st !! r with
  | None => st
  | Some c =>
      if negb (is_reply response) || negb (bool_decide (topic response = call_topic c))
      then st
      else
        let st1 := update_call r (push_response response) st in
        if Nat.eqb (length (responses c ++ [response])) (procLength c)
        then update_call r clear_and_resolve (process_removeListener (L_handler r) st1)
        else st1
  end.

(** [awaitAllProcMessagesReplies]: the broadcast, then [setTimeout], then
    [process.on('message', handler)].  From the callback of [pm2.list] to
    the registration of [handler] only promise jobs run, so no inbound
    message is handled in between and the whole is one step. *)
Definition awaitAllProcMessagesReplies (bus : Bus) (e : env.t) (answer : ListAnswer)
    (topic' : string) (timeoutInMilliseconds : number) (st : State)
    : State * PromiseRef :=
  match getCurrentProcId e with
  | Throw err => (unhandled err st, NeverSettled)
  | Ok currentProcId =>
      let request :=
        {| id := currentProcId; replyTo := Some currentProcId;
           originalProcId := currentProcId; topic := topic';
           data := JsObject []; isReply := Some false |} in
      match broadcastToAll bus e answer request st with
      | Throw err => (unhandled err st, NeverSettled)
      | Ok (st1, n) =>
          let r := length (calls st1) in
          let c := {| call_topic := topic'; procLength := n; responses := [];
                      timeoutHandle := Armed timeoutInMilliseconds;
                      promise := Pending |} in
          (process_on (L_handler r) (with_calls (calls st1 ++ [c]) st1), OfCall r)
      end
  end.

(** The timer of call [r] fires (only an armed timer can). *)
Definition timer_fires (r : nat) (st : State) : State :=
  match calls st !! r with
  | Some c =>
      match timeoutHandle c with
      | Armed _ => update_call r timed_out st
      | _ => st
      end
  | None => st
  end.

(** ** Responder *)

(** [sendProcReply(originalPacket, data = {})] *)
Definition sendProcReply (bus : Bus) (e : env.t) (originalPacket : ProcessPacket)
    (data' : JsValue) (st : State) : Result State :=
  let data' := match data' with JsUndefined => JsObject [] | _ => data' end in
  match getCurrentProcId e with
  | Throw err => Throw err
  | Ok currentProcId =>
      let returnPacket :=
        {| topic := topic originalPacket;
           replyTo := replyTo originalPacket;
           data := data';
           isReply := Some true;
           id := currentProcId;
           originalProcId := currentProcId |} in
      match replyTo originalPacket with
      | None => Throw (ThrownError "ReplyTo is undefined")
      | Some to => Ok (sendDataToProcessId bus to returnPacket ignore_err st)
      end
  end.

(** [handleProcessMessage]: an [async] listener, so what [sendProcReply]
    throws becomes a rejection nobody handles.  [metrics] is what
    [client.register.getMetricsAsJSON()] resolves with.  (The [packet &&]
    test holds of every packet object.) *)
Definition handleProcessMessage (bus : Bus) (e : env.t) (metrics : JsValue)
    (p : ProcessPacket) (st : State) : State :=
  if bool_decide (topic p = "metrics-get") && negb (is_reply p)
  then match sendProcReply bus e p metrics st with
       | Ok st' => st'
       | Throw err => unhandled err st
       end
  else st.

(** ** The event loop *)

Definition run_listener (bus : Bus) (e : env.t) (metrics : JsValue)
    (p : ProcessPacket) (st : State) (l : Listener) : State :=
  match l with
  | L_handleProcessMessage => handleProcessMessage bus e metrics p st
  | L_handler r => handler r p st
  end.

(** [process.emit('message', p)]: the listeners registered when the event
    is emitted are called in order, on a copy of the array. *)
Definition emit_message (bus : Bus) (e : env.t) (metrics : JsValue)
    (p : ProcessPacket) (st : State) : State :=
  fold_left (run_listener bus e metrics p) (listeners st) st.

Inductive Event :=
| Message (bus : Bus) (metrics : JsValue) (p : ProcessPacket)
| TimerFires (r : nat)
| Await (bus : Bus) (answer : ListAnswer) (topic' : string)
        (timeoutInMilliseconds : number).

Definition step (e : env.t) (st : State) (ev : Event) : State :=
  match ev with
  | Message bus metrics p => emit_message bus e metrics p st
  | TimerFires r => timer_fires r st
  | Await bus answer topic' ms =>
      fst (awaitAllProcMessagesReplies bus e answer topic' ms st)
  end.

Definition run (e : env.t) (evs : list Event) (st : State) : State :=
  fold_left (step e) evs st.

(** The module's top level: in cluster mode [handleProcessMessage] is
    removed (it was never registered) and registered. *)
Definition empty_state : State :=
  {| listeners := []; calls := []; sent := []; unhandledRejections := [] |}.

Definition init (e : env.t) : State :=
  if isClusterMode e
  then process_on L_handleProcessMessage
         (process_removeListener L_handleProcessMessage empty_state)
  else empty_state.

(** ** Aggregate query facade *)

(** The promise of [getAggregateMetrics]: settled at once with a registry,
    or following the promise of the call it awaits. *)
Inductive MetricsPromise :=
| Immediately (registry : Registry)
| AfterCall (p : PromiseRef).

(** [getAggregateMetrics(timeoutInMilliseconds = 10e3)] *)
Definition getAggregateMetrics (bus : Bus) (e : env.t) (answer : ListAnswer)
    (timeoutInMilliseconds : option number) (st : State) : State * MetricsPromise :=
  let ms := default (Num 10000) timeoutInMilliseconds in
  if isClusterMode e
  then let '(st', p) := awaitAllProcMessagesReplies bus e answer "metrics-get" ms st in
       (st', AfterCall p)
  else (st, Immediately client_register).

(** [client.AggregatorRegistry.aggregate(procMetrics.map((o) => o.data))]
    once the awaited call is fulfilled; its rejection passes through. *)
Definition metrics_of (st : State) (mp : MetricsPromise) : Promise Registry :=
  match mp with
  | Immediately registry => Fulfilled registry
  | AfterCall p =>
      match promise_of st p with
      | Pending => Pending
      | Fulfilled procMetrics =>
          Fulfilled (AggregatorRegistry_aggregate (map data procMetrics))
      | Rejected reason => Rejected reason
      end
  end.

(** ** One call seen on its own

    The record of call [r] together with whether its [handler] is still
    registered evolves by itself; the three functions below say how, and
    [view_step] proves that the event loop agrees. *)

Definition registered (r : nat) (st : State) : bool :=
  bool_decide (L_handler r ∈ listeners st).

Definition view (r : nat) (st : State) : option (Call * bool) :=
  (fun c => (c, registered r st)) <$> calls st !! r.

(** A message, for a call whose handler is registered. *)
Definition deliver (p : ProcessPacket) (v : Call * bool) : Call * bool :=
  if snd v then
    if matches (call_topic (fst v)) p then
      if Nat.eqb (length (responses (fst v) ++ [p])) (procLength (fst v))
      then (clear_and_resolve (push_response p (fst v)), false)
      else (push_response p (fst v), true)
    else v
  else v.

(** The call's timer fires. *)
Definition expire (v : Call * bool) : Call * bool :=
  match timeoutHandle (fst v) with
  | Armed _ => (timed_out (fst v), snd v)
  | _ => v
  end.

Definition call_step (r : nat) (v : Call * bool) (ev : Event) : Call * bool :=
  match ev with
  | Message _ _ p => deliver p v
  | TimerFires r' => if bool_decide (r' = r) then expire v else v
  | Await _ _ _ _ => v
  end.

(** The packets of the inbound messages of a trace, in order, and among
    them those the handler of a call on [topic'] keeps. *)
Definition inbound (evs : list Event) : list ProcessPacket :=
  omap (fun ev => match ev with Message _ _ p => Some p | _ => None end) evs.

Definition replies (topic' : string) (evs : list Event) : list ProcessPacket :=
  List.filter (matches topic') (inbound evs).

(** Reachable states keep every listener registered once, and every
    registered [handler] belongs to a recorded call. *)
Definition wf (st : State) : Prop :=
  NoDup (listeners st) ∧ ∀ r, L_handler r ∈ listeners st → r < length (calls st).

(** The process ids [broadcastToAll] sends to: those of the listed
    processes whose [pm_id] is truthy. *)
Definition targets (procList : list ProcessDescription) : list number :=
  omap (fun proc => match pm_id proc with
                    | Some n => if truthy_number n then Some n else None
                    | None => None
                    end) procList.

(** The record of a call right after [awaitAllProcMessagesReplies]. *)
Definition fresh_call (topic' : string) (n : nat) (ms : number) : Call :=
  {| call_topic := topic'; procLength := n; responses := [];
     timeoutHandle := Armed ms; promise := Pending |}.

(** The request packet of a broadcast on [topic'] by process [self]. *)
Definition request_packet (self : number) (topic' : string) : ProcessPacket :=
  {| id := self; replyTo := Some self; originalProcId := self; topic := topic';
     data := JsObject []; isReply := Some false |}.

(** A call expecting [n] replies has them all once [n] kept packets have
    arrived, which the handler can only notice on an arrival: never for
    [n = 0]. *)
Definition complete (n : nat) (rs : list ProcessPacket) : bool :=
  Nat.ltb 0 n && Nat.leb n (length rs).

(** What the handler has collected out of the kept packets [rs]: all of
    them until the call is complete, the first [n] from then on. *)
Definition collected (n : nat) (rs : list ProcessPacket) : list ProcessPacket :=
  if complete n rs then take n rs else rs.

(** How a call on [topic'] that expects [n] replies stands after the
    events [evs]. *)
Record tracks (topic' : string) (n : nat) (ms : number) (r : nat)
    (evs : list Event) (v : Call * bool) : Prop := {
  tracks_topic : call_topic (fst v) = topic';
  tracks_procLength : procLength (fst v) = n;
  tracks_responses : responses (fst v) = collected n (replies topic' evs);
  tracks_registered : snd v = negb (complete n (replies topic' evs));
  tracks_settlement :
    (timeoutHandle (fst v) = Armed ms ∧ promise (fst v) = Pending ∧
     complete n (replies topic' evs) = false ∧ TimerFires r ∉ evs) ∨
    (timeoutHandle (fst v) = Cleared ∧
     promise (fst v) = Fulfilled (take n (replies topic' evs)) ∧
     complete n (replies topic' evs) = true) ∨
    (timeoutHandle (fst v) = Fired ∧
     promise (fst v) = Rejected (ThrownString "timeout") ∧ TimerFires r ∈ evs)
}.

(** What call [r] has collected so far. *)
Definition responses_of (r : nat) (st : State) : list ProcessPacket :=
  default [] (responses <$> calls st !! r).

(** A listed process [broadcastToAll] counts but does not send to. *)
Definition falsy_pm_id (proc : ProcessDescription) : Prop :=
  pm_id proc = None ∨ pm_id proc = Some (Num 0).

(** The reply [sendProcReply] builds in process [self] for a request. *)
Definition reply_packet (self : number) (request : ProcessPacket) (data' : JsValue)
    : ProcessPacket :=
  {| topic := topic request; replyTo := replyTo request;
     data := match data' with JsUndefined => JsObject [] | _ => data' end;
     isReply := Some true; id := self; originalProcId := self |}.

(** What [handleProcessMessage] sends on a packet: one reply to
    [packet.replyTo] for a ['metrics-get'] request, when the process id is
    known and [replyTo] is set. *)
Definition responder_sends (bus : Bus) (e : env.t) (metrics : JsValue)
    (p : ProcessPacket) : list Send :=
  if bool_decide (topic p = "metrics-get") && negb (is_reply p)
  then match getCurrentProcId e, replyTo p with
       | Ok self, Some to =>
           [{| target := to; packet := reply_packet self p metrics; send_err := bus to |}]
       | _, _ => []
       end
  else [].

(** The states a worker can be in: those the event loop reaches from the
    module's top level. *)
Definition reachable (e : env.t) (st : State) : Prop :=
  ∃ evs, st = run e evs (init e).

(** ** Concrete processes, for the examples

    A cluster of workers named ["app"]; [worker i] is the environment of the
    one with pm2 id [i] and [online i] its entry in [pm2.list]. *)
Module Example.
Definition worker (i : string) : env.t :=
  {| env.exec_mode := Some "cluster_mode"; env.pm_id := Some i;
     env.name := Some "app" |}.

Definition online (i : Z) : ProcessDescription :=
  {| name := Some "app"; pm_id := Some (Num i);
     pm2_env := Some {| status := Some "online" |} |}.

Definition bus : Bus := fun _ => None.

(** A bus on which every send fails. *)
Definition dead_bus : Bus := fun _ => Some (ThrownError "Process not found").

(** The reply of worker [i] to a ['metrics-get'] request of worker 1. *)
Definition reply_of (i : Z) : ProcessPacket :=
  reply_packet (Num i) (request_packet (Num 1) "metrics-get") (JsArray []).

Definition metrics : JsValue := JsArray [].

(** Worker 1 asks workers 1 and 2, hears only from itself and runs into
    the timeout ... *)
Definition expired : list Event :=
  [ Await bus (None, [online 1; online 2]) "metrics-get" (Num 1000);
    Message bus metrics (request_packet (Num 1) "metrics-get");
    Message bus metrics (reply_of 1);
    TimerFires 0 ].

(** ... then asks again, now with itself as the only online worker, and
    the reply of worker 2 to the first request comes in. *)
Definition asked_again : list Event :=
  [ Await bus (None, [online 1]) "metrics-get" (Num 1000);
    Message bus metrics (reply_of 2) ].
End Example.

(** C3 as the claim states it: every reply [sendProcReply] sends carries
    the [originalProcId] of the request it answers. *)
Definition originalProcId_carried_unchanged : Prop :=
  ∀ bus e request data' st st' s,
    sendProcReply bus e request data' st = Ok st' →
    last (sent st') = Some s →
    originalProcId (packet s) = originalProcId request.

(** ** Sync timer *)

(** [a % b] and [a - b] on the integers among the numbers: the remainder
    has the sign of the dividend, and a zero divisor gives [NaN]. *)
Definition js_rem (a b : number) : number :=
  match a, b with
  | Num x, Num y => if Z.eqb y 0 then NaN else Num (Z.rem x y)
  | _, _ => NaN
  end.

Definition js_sub (a b : number) : number :=
  match a, b with
  | Num x, Num y => Num (x - y)
  | _, _ => NaN
  end.

(** A [NodeJS.Timer] as [setTimeout] makes it: the callback, the delay asked
    for, and whether the timer keeps the process alive. *)
Record Timer (A : Type) := {
  timer_callback : A;
  timer_delay : number;
  timer_hasRef : bool
}.
Arguments timer_callback {A} _.
Arguments timer_delay {A} _.
Arguments timer_hasRef {A} _.

Definition setTimeout {A} (callback : A) (delay : number) : Timer A :=
  {| timer_callback := callback; timer_delay := delay; timer_hasRef := true |}.

Definition unref {A} (handle : Timer A) : Timer A :=
  {| timer_callback := timer_callback handle; timer_delay := timer_delay handle;
     timer_hasRef := false |}.

(** [timeSyncRun(syncTimeInMilliseconds, callback)], with what [Date.now()]
    returns as an argument. *)
Definition timeSyncRun {A} (now : number) (syncTimeInMilliseconds : number)
    (callback : A) : Timer A :=
  let handle :=
    setTimeout callback
      (js_sub syncTimeInMilliseconds (js_rem now syncTimeInMilliseconds)) in
  unref handle.

(** ** Events that leave a call alone *)

(** An event that is neither a packet the handler of a call on [topic']
    keeps, nor the firing of the timer of call [r]. *)
Definition unrelated (topic' : string) (r : nat) (ev : Event) : Prop :=
  match ev with
  | Message _ _ p => matches topic' p = false
  | TimerFires r' => r' ≠ r
  | Await _ _ _ _ => True
  end.

Definition is_Await (ev : Event) : bool :=
  match ev with
  | Await _ _ _ _ => true
  | _ => false
  end.

(** What holds of the record of a call and of its handler's registration
    at every moment of its life. *)
Definition call_ok (v : Call * bool) : Prop :=
  Forall (fun p => matches (call_topic (fst v)) p = true) (responses (fst v)) ∧
  snd v = negb (Nat.ltb 0 (procLength (fst v)) &&
                Nat.eqb (length (responses (fst v))) (procLength (fst v))) ∧
  (procLength (fst v) = 0 ∨ length (responses (fst v)) ≤ procLength (fst v)) ∧
  (((∃ ms, timeoutHandle (fst v) = Armed ms) ∧ promise (fst v) = Pending ∧ snd v = true) ∨
   (timeoutHandle (fst v) = Cleared ∧ promise (fst v) = Fulfilled (responses (fst v)) ∧
    snd v = false) ∨
   (timeoutHandle (fst v) = Fired ∧
    promise (fst v) = Rejected (ThrownString "timeout"))).

(** * Properties *)

(** ** Listener bookkeeping *)

Lemma elem_of_remove_last_ne (x l : Listener) (ls : list Listener) :
  x ≠ l → x ∈ remove_last l ls ↔ x ∈ ls.
Proof.
  intros Hne. induction ls as [|l' ls IH]; simpl; [done|].
  destruct (bool_decide (l' = l) && negb (bool_decide (l ∈ ls))) eqn:E.
  - apply andb_true_iff in E as [E _]. apply bool_decide_eq_true in E. subst l'.
    rewrite elem_of_cons. intuition congruence.
  - rewrite !elem_of_cons, IH. done.
Qed.

Lemma elem_of_remove_last (x l : Listener) (ls : list Listener) :
  x ∈ remove_last l ls → x ∈ ls.
Proof.
  induction ls as [|l' ls IH]; simpl; [done|].
  destruct (bool_decide (l' = l) && negb (bool_decide (l ∈ ls))).
  - intros Hin. apply elem_of_cons. by right.
  - rewrite !elem_of_cons. intros [->|Hin]; [by left|right; auto].
Qed.

Lemma NoDup_remove_last (l : Listener) (ls : list Listener) :
  NoDup ls → NoDup (remove_last l ls).
Proof.
  induction 1 as [|l' ls Hnotin Hnd IH]; simpl; [constructor|].
  destruct (bool_decide (l' = l) && negb (bool_decide (l ∈ ls))); [done|].
  constructor; [|done]. intros Hin. by apply Hnotin, (elem_of_remove_last _ l).
Qed.

Lemma not_elem_of_remove_last (l : Listener) (ls : list Listener) :
  NoDup ls → l ∉ remove_last l ls.
Proof.
  induction 1 as [|l' ls Hnotin Hnd IH]; simpl; [apply not_elem_of_nil|].
  destruct (bool_decide (l' = l)) eqn:E1; simpl.
  - apply bool_decide_eq_true in E1. subst l'.
    rewrite (bool_decide_eq_false_2 _ Hnotin). done.
  - apply bool_decide_eq_false in E1. rewrite not_elem_of_cons. done.
Qed.

(** ** What one listener does to the state *)

Lemma handler_length r p st : length (calls (handler r p st)) = length (calls st).
Proof.
  unfold handler. destruct (calls st !! r) as [c|]; [|done].
  destruct (_ || _); [done|].
  destruct (Nat.eqb _ _); simpl; by rewrite ?length_alter.
Qed.

Lemma handler_calls_ne r r' p st :
  r ≠ r' → calls (handler r p st) !! r' = calls st !! r'.
Proof.
  intros Hne. unfold handler. destruct (calls st !! r) as [c|]; [|done].
  destruct (_ || _); [done|].
  destruct (Nat.eqb _ _); simpl; by rewrite ?list_lookup_alter_ne.
Qed.

Lemma handler_listeners_ne r p st l :
  l ≠ L_handler r → l ∈ listeners (handler r p st) ↔ l ∈ listeners st.
Proof.
  intros Hne. unfold handler. destruct (calls st !! r) as [c|]; [|done].
  destruct (_ || _); [done|].
  destruct (Nat.eqb _ _); simpl; [|done].
  by apply elem_of_remove_last_ne.
Qed.

Lemma handler_listeners_sub r p st l :
  l ∈ listeners (handler r p st) → l ∈ listeners st.
Proof.
  unfold handler. destruct (calls st !! r) as [c|]; [|done].
  destruct (_ || _); [done|].
  destruct (Nat.eqb _ _); simpl; [|done].
  apply elem_of_remove_last.
Qed.

Lemma handler_NoDup r p st :
  NoDup (listeners st) → NoDup (listeners (handler r p st)).
Proof.
  intros Hnd. unfold handler. destruct (calls st !! r) as [c|]; [|done].
  destruct (_ || _); [done|].
  destruct (Nat.eqb _ _); simpl; [|done].
  by apply NoDup_remove_last.
Qed.

Lemma handleProcessMessage_calls bus e metrics p st :
  calls (handleProcessMessage bus e metrics p st) = calls st.
Proof.
  unfold handleProcessMessage, sendProcReply.
  destruct (_ && _); [|done].
  destruct (getCurrentProcId e); [|done].
  by destruct (replyTo p).
Qed.

Lemma handleProcessMessage_listeners bus e metrics p st :
  listeners (handleProcessMessage bus e metrics p st) = listeners st.
Proof.
  unfold handleProcessMessage, sendProcReply.
  destruct (_ && _); [|done].
  destruct (getCurrentProcId e); [|done].
  by destruct (replyTo p).
Qed.

Lemma handler_view r p st :
  NoDup (listeners st) → L_handler r ∈ listeners st →
  view r (handler r p st) = deliver p <$> view r st.
Proof.
  intros Hnd Hin. unfold view, handler, deliver, registered.
  destruct (calls st !! r) as [c|] eqn:Hc; simpl; [|by rewrite Hc].
  rewrite (bool_decide_eq_true_2 _ Hin). unfold matches.
  destruct (_ || _); simpl; [by rewrite Hc, (bool_decide_eq_true_2 _ Hin)|].
  destruct (Nat.eqb _ _); simpl.
  - rewrite !list_lookup_alter_eq, Hc. simpl.
    rewrite bool_decide_eq_false_2; [done|]. by apply not_elem_of_remove_last.
  - rewrite !list_lookup_alter_eq, Hc. simpl.
    by rewrite (bool_decide_eq_true_2 _ Hin).
Qed.

Lemma run_listener_view_ne bus e metrics p st l r :
  l ≠ L_handler r → view r (run_listener bus e metrics p st l) = view r st.
Proof.
  intros Hne. unfold view, registered. destruct l as [|r']; simpl.
  - by rewrite handleProcessMessage_calls, handleProcessMessage_listeners.
  - rewrite handler_calls_ne by congruence.
    destruct (calls st !! r); simpl; [|done]. f_equal. f_equal.
    apply bool_decide_ext, handler_listeners_ne. congruence.
Qed.

Lemma run_listener_elem_of_ne bus e metrics p st l l' :
  l' ≠ l → l' ∈ listeners (run_listener bus e metrics p st l) ↔ l' ∈ listeners st.
Proof.
  intros Hne. destruct l as [|r]; simpl.
  - by rewrite handleProcessMessage_listeners.
  - by apply handler_listeners_ne.
Qed.

Lemma run_listener_elem_of bus e metrics p st l l' :
  l' ∈ listeners (run_listener bus e metrics p st l) → l' ∈ listeners st.
Proof.
  destruct l as [|r]; simpl.
  - by rewrite handleProcessMessage_listeners.
  - apply handler_listeners_sub.
Qed.

Lemma run_listener_NoDup bus e metrics p st l :
  NoDup (listeners st) → NoDup (listeners (run_listener bus e metrics p st l)).
Proof.
  destruct l as [|r]; simpl.
  - by rewrite handleProcessMessage_listeners.
  - apply handler_NoDup.
Qed.

Lemma run_listener_length bus e metrics p st l :
  length (calls (run_listener bus e metrics p st l)) = length (calls st).
Proof.
  destruct l as [|r]; simpl.
  - by rewrite handleProcessMessage_calls.
  - apply handler_length.
Qed.

(** ** A whole [emit] *)

Section emit.
Context (bus : Bus) (e : env.t) (metrics : JsValue) (p : ProcessPacket).

Let go := fold_left (run_listener bus e metrics p).

Lemma emit_fold_elem_of ls st l : l ∈ listeners (go ls st) → l ∈ listeners st.
Proof.
  revert st. induction ls as [|l0 ls IH]; intros st; simpl; [done|].
  intros Hin. by eapply run_listener_elem_of, IH.
Qed.

Lemma emit_fold_NoDup ls st : NoDup (listeners st) → NoDup (listeners (go ls st)).
Proof.
  revert st. induction ls as [|l0 ls IH]; intros st; simpl; [done|].
  intros Hnd. by apply IH, run_listener_NoDup.
Qed.

Lemma emit_fold_length ls st : length (calls (go ls st)) = length (calls st).
Proof.
  revert st. induction ls as [|l0 ls IH]; intros st; simpl; [done|].
  by rewrite IH, run_listener_length.
Qed.

Lemma emit_fold_view r ls st :
  NoDup ls → NoDup (listeners st) → (∀ l, l ∈ ls → l ∈ listeners st) →
  view r (go ls st) =
    (if bool_decide (L_handler r ∈ ls) then deliver p <$> view r st else view r st).
Proof.
  intros Hls. revert st. induction Hls as [|l0 ls Hnotin Hls IH]; intros st Hnd Hsub.
  { done. }
  simpl. rewrite IH.
  - destruct (decide (l0 = L_handler r)) as [->|Hne].
    + rewrite (bool_decide_eq_false_2 _ Hnotin).
      rewrite bool_decide_eq_true_2 by (apply elem_of_cons; auto).
      simpl. apply handler_view; [done|]. apply Hsub, elem_of_cons; auto.
    + rewrite run_listener_view_ne by done.
      apply (f_equal (fun b : bool => if b then _ else _)).
      apply bool_decide_ext. rewrite elem_of_cons. intuition congruence.
  - by apply run_listener_NoDup.
  - intros l Hl. apply run_listener_elem_of_ne; [by intros ->|].
    apply Hsub, elem_of_cons; auto.
Qed.

Lemma emit_message_view r st :
  NoDup (listeners st) →
  view r (emit_message bus e metrics p st) = deliver p <$> view r st.
Proof.
  intros Hnd. unfold emit_message. fold go. rewrite emit_fold_view by done.
  case_bool_decide as Hin; [done|].
  unfold view, registered. rewrite (bool_decide_eq_false_2 _ Hin).
  by destruct (calls st !! r).
Qed.

Lemma emit_message_wf st : wf st → wf (emit_message bus e metrics p st).
Proof.
  intros [Hnd Hrange]. split.
  - by apply emit_fold_NoDup.
  - intros r Hin. unfold emit_message. fold go. rewrite emit_fold_length.
    by eapply Hrange, emit_fold_elem_of.
Qed.
End emit.

(** ** The broadcast *)

Lemma forEach_send_frame bus p procList st :
  listeners (fold_left (send_if_pm_id bus p) procList st) = listeners st ∧
  calls (fold_left (send_if_pm_id bus p) procList st) = calls st ∧
  unhandledRejections (fold_left (send_if_pm_id bus p) procList st)
    = unhandledRejections st.
Proof.
  revert st. induction procList as [|proc procList IH]; intros st; simpl; [done|].
  destruct (IH (send_if_pm_id bus p st proc)) as (-> & -> & ->).
  unfold send_if_pm_id. destruct (pm_id proc) as [n|]; [|done].
  by destruct (truthy_number n).
Qed.

Lemma forEach_send_sent bus p procList st :
  sent (fold_left (send_if_pm_id bus p) procList st) =
  sent st ++ map (fun n => {| target := n; packet := p; send_err := bus n |})
                 (targets procList).
Proof.
  revert st. induction procList as [|proc procList IH]; intros st; simpl.
  { by rewrite app_nil_r. }
  rewrite IH. unfold send_if_pm_id, targets. simpl.
  destruct (pm_id proc) as [n|]; [|done].
  destruct (truthy_number n); [|done].
  simpl. by rewrite <- app_assoc.
Qed.

Lemma broadcastToAll_Ok bus e answer p st st1 n :
  broadcastToAll bus e answer p st = Ok (st1, n) →
  ∃ procList, getProcList e answer = Ok procList ∧ n = length procList ∧
    listeners st1 = listeners st ∧ calls st1 = calls st ∧
    unhandledRejections st1 = unhandledRejections st ∧
    sent st1 = sent st ++ map (fun n => {| target := n; packet := p; send_err := bus n |})
                              (targets procList).
Proof.
  unfold broadcastToAll. destruct (getProcList e answer) as [procList|]; [|done].
  intros [= <- <-]. exists procList.
  destruct (forEach_send_frame bus p procList st) as (-> & -> & ->).
  by rewrite forEach_send_sent.
Qed.

(** ** A new call *)

(** The outcome of [awaitAllProcMessagesReplies], case by case. *)
Lemma awaitAllProcMessagesReplies_cases bus e answer topic' ms st :
  let res := awaitAllProcMessagesReplies bus e answer topic' ms st in
  (snd res = NeverSettled ∧ listeners (fst res) = listeners st ∧
   calls (fst res) = calls st ∧ sent (fst res) = sent st) ∨
  (∃ self procList,
     getCurrentProcId e = Ok self ∧ getProcList e answer = Ok procList ∧
     snd res = OfCall (length (calls st)) ∧
     listeners (fst res) = listeners st ++ [L_handler (length (calls st))] ∧
     calls (fst res) = calls st ++ [fresh_call topic' (length procList) ms] ∧
     sent (fst res) =
       sent st ++ map (fun n => {| target := n; packet := request_packet self topic';
                                   send_err := bus n |}) (targets procList)).
Proof.
  unfold awaitAllProcMessagesReplies.
  destruct (getCurrentProcId e) as [self|]; simpl; [|by left].
  destruct (broadcastToAll _ _ _ _ _) as [[st1 n]|] eqn:Hb; simpl; [|by left].
  apply broadcastToAll_Ok in Hb as (procList & Hl & -> & Hls & Hcs & _ & Hs).
  right. exists self, procList. by rewrite Hls, Hcs, Hs.
Qed.

Lemma awaitAllProcMessagesReplies_wf bus e answer topic' ms st :
  wf st → wf (fst (awaitAllProcMessagesReplies bus e answer topic' ms st)).
Proof.
  intros [Hnd Hrange].
  destruct (awaitAllProcMessagesReplies_cases bus e answer topic' ms st)
    as [(_ & Hls & Hcs & _)|(self & procList & _ & _ & _ & Hls & Hcs & _)];
    unfold wf; rewrite Hls, Hcs; [done|].
  split.
  - apply NoDup_app. split_and!; [done| |apply NoDup_singleton].
    intros l Hl ->%list_elem_of_singleton. apply Hrange in Hl. lia.
  - intros r. rewrite elem_of_app, list_elem_of_singleton, length_app. simpl.
    intros [Hin%Hrange|[= ->]]; lia.
Qed.

Lemma awaitAllProcMessagesReplies_view bus e answer topic' ms st r v :
  view r st = Some v →
  view r (fst (awaitAllProcMessagesReplies bus e answer topic' ms st)) = Some v.
Proof.
  unfold view, registered. intros Hv.
  destruct (calls st !! r) as [c|] eqn:Hc; [|done]. simpl in Hv.
  destruct (awaitAllProcMessagesReplies_cases bus e answer topic' ms st)
    as [(_ & Hls & Hcs & _)|(self & procList & _ & _ & _ & Hls & Hcs & _)];
    rewrite Hls, Hcs; [by rewrite Hc|].
  rewrite (lookup_app_l_Some _ _ _ _ Hc). simpl. rewrite <- Hv. do 2 f_equal.
  apply bool_decide_ext. rewrite elem_of_app, list_elem_of_singleton.
  apply lookup_lt_Some in Hc. split; [|by left].
  intros [?|[= ->]]; [done|lia].
Qed.

Lemma awaitAllProcMessagesReplies_fresh bus e answer topic' ms st r :
  snd (awaitAllProcMessagesReplies bus e answer topic' ms st) = OfCall r →
  ∃ self procList,
    getCurrentProcId e = Ok self ∧ getProcList e answer = Ok procList ∧
    r = length (calls st) ∧
    view r (fst (awaitAllProcMessagesReplies bus e answer topic' ms st))
      = Some (fresh_call topic' (length procList) ms, true).
Proof.
  intros Hr.
  destruct (awaitAllProcMessagesReplies_cases bus e answer topic' ms st)
    as [(Hn & _)|(self & procList & Hself & Hl & Hp & Hls & Hcs & _)];
    [congruence|].
  rewrite Hp in Hr. injection Hr as <-.
  exists self, procList. split_and!; [done..|].
  unfold view, registered. rewrite Hls, Hcs, list_lookup_middle by done. simpl.
  rewrite bool_decide_eq_true_2; [done|]. apply elem_of_app. right.
  by apply list_elem_of_singleton.
Qed.

(** ** The timer *)

Lemma timer_fires_listeners r st : listeners (timer_fires r st) = listeners st.
Proof.
  unfold timer_fires. destruct (calls st !! r) as [c|]; [|done].
  by destruct (timeoutHandle c).
Qed.

Lemma timer_fires_length r st : length (calls (timer_fires r st)) = length (calls st).
Proof.
  unfold timer_fires. destruct (calls st !! r) as [c|]; [|done].
  destruct (timeoutHandle c); simpl; by rewrite ?length_alter.
Qed.

Lemma timer_fires_view r r' st :
  view r (timer_fires r' st) =
    (if bool_decide (r' = r) then expire <$> view r st else view r st).
Proof.
  unfold view, registered. rewrite timer_fires_listeners.
  unfold timer_fires, expire.
  destruct (decide (r' = r)) as [->|Hr];
    [rewrite (bool_decide_eq_true_2 (r = r)) by done
    |rewrite (bool_decide_eq_false_2 (r' = r)) by done].
  - destruct (calls st !! r) as [c|] eqn:Hc; simpl; [|by rewrite Hc].
    destruct (timeoutHandle c) eqn:Ht; simpl; rewrite ?Hc; simpl; try done.
    by rewrite list_lookup_alter_eq, Hc.
  - destruct (calls st !! r') as [c'|]; [|done].
    destruct (timeoutHandle c'); simpl; by rewrite ?list_lookup_alter_ne.
Qed.

(** ** The event loop agrees with the call seen on its own *)

Lemma step_wf e st ev : wf st → wf (step e st ev).
Proof.
  intros Hwf. destruct ev as [bus metrics p|r|bus answer topic' ms]; simpl.
  - by apply emit_message_wf.
  - destruct Hwf as [Hnd Hrange]. split; rewrite timer_fires_listeners; [done|].
    by rewrite timer_fires_length.
  - by apply awaitAllProcMessagesReplies_wf.
Qed.

Lemma run_wf e evs st : wf st → wf (run e evs st).
Proof.
  revert st. induction evs as [|ev evs IH]; intros st Hwf; simpl; [done|].
  by apply IH, step_wf.
Qed.

Lemma view_step e st ev r v :
  wf st → view r st = Some v → view r (step e st ev) = Some (call_step r v ev).
Proof.
  intros [Hnd _] Hv. destruct ev as [bus metrics p|r'|bus answer topic' ms]; simpl.
  - by rewrite emit_message_view, Hv.
  - rewrite timer_fires_view, Hv. by case_bool_decide.
  - by apply awaitAllProcMessagesReplies_view.
Qed.

Lemma view_run e evs st r v :
  wf st → view r st = Some v →
  view r (run e evs st) = Some (fold_left (call_step r) evs v).
Proof.
  revert st v. induction evs as [|ev evs IH]; intros st v Hwf Hv; simpl; [done|].
  apply IH; [by apply step_wf|by apply view_step].
Qed.

Lemma init_wf e : wf (init e).
Proof.
  unfold init. destruct (isClusterMode e); simpl.
  - split; simpl; [apply NoDup_singleton|].
    by intros r [=]%list_elem_of_singleton.
  - split; simpl; [constructor|]. by intros r ?%elem_of_nil.
Qed.

(** ** The life of one call *)

Lemma replies_snoc topic' evs ev :
  replies topic' (evs ++ [ev]) =
  replies topic' evs ++
    match ev with
    | Message _ _ p => if matches topic' p then [p] else []
    | _ => []
    end.
Proof.
  unfold replies, inbound. rewrite omap_app, List.filter_app. f_equal.
  destruct ev as [bus metrics p| |]; simpl; try done.
Qed.

Lemma complete_snoc_true n rs p : complete n rs = true → complete n (rs ++ [p]) = true.
Proof.
  unfold complete. rewrite !andb_true_iff, !Nat.ltb_lt, !Nat.leb_le, length_app.
  simpl. lia.
Qed.

Lemma collected_snoc_complete n rs p :
  complete n rs = true → collected n (rs ++ [p]) = collected n rs.
Proof.
  intros Hc. unfold collected. rewrite Hc, (complete_snoc_true _ _ _ Hc).
  apply andb_true_iff in Hc as [_ Hle%Nat.leb_le]. by apply take_app_le.
Qed.

Lemma take_replies_snoc_complete n rs p :
  complete n rs = true → take n (rs ++ [p]) = take n rs.
Proof.
  intros [_ Hle%Nat.leb_le]%andb_true_iff. by apply take_app_le.
Qed.

Lemma tracks_fresh topic' n ms r : tracks topic' n ms r [] (fresh_call topic' n ms, true).
Proof.
  assert (complete n [] = false) as Hc.
  { unfold complete. by destruct n. }
  split; simpl; try done.
  - unfold collected, replies. simpl. by rewrite Hc.
  - unfold replies. simpl. by rewrite Hc.
  - left. unfold replies. simpl. split_and!; try done. apply not_elem_of_nil.
Qed.

Lemma tracks_other topic' n ms r evs ev v :
  match ev with
  | Message _ _ p => matches topic' p = false
  | TimerFires r' => r' ≠ r
  | Await _ _ _ _ => True
  end →
  tracks topic' n ms r evs v → tracks topic' n ms r (evs ++ [ev]) (call_step r v ev).
Proof.
  intros Hev [Ht Hn Hr Hreg Hs].
  assert (call_step r v ev = v) as ->.
  { destruct ev as [bus metrics p|r'|]; simpl; [|by rewrite bool_decide_eq_false_2|done].
    unfold deliver. rewrite Ht, Hev. by destruct (snd v). }
  assert (replies topic' (evs ++ [ev]) = replies topic' evs) as Hsame.
  { rewrite replies_snoc. destruct ev; rewrite ?Hev, ?app_nil_r; done. }
  assert (TimerFires r ∈ evs ++ [ev] ↔ TimerFires r ∈ evs) as Hin.
  { rewrite elem_of_app, list_elem_of_singleton.
    destruct ev; split; try (intros [?|[=]]; done); by left. }
  split; rewrite ?Hsame, ?Hin; done.
Qed.

Lemma tracks_timer topic' n ms r evs v :
  tracks topic' n ms r evs v →
  tracks topic' n ms r (evs ++ [TimerFires r]) (call_step r v (TimerFires r)).
Proof.
  intros [Ht Hn Hr Hreg Hs].
  assert (replies topic' (evs ++ [TimerFires r]) = replies topic' evs) as Hsame.
  { by rewrite replies_snoc, app_nil_r. }
  assert (TimerFires r ∈ evs ++ [TimerFires r]) as Hin.
  { apply elem_of_app. right. by apply list_elem_of_singleton. }
  simpl. rewrite bool_decide_eq_true_2 by done. unfold expire.
  destruct Hs as [(Hh & Hp & Hc & Hno)|[(Hh & Hp & Hc)|(Hh & Hp & Hyes)]]; rewrite Hh.
  - split; simpl; rewrite ?Hsame; try done.
    right. right. by rewrite Hp.
  - split; rewrite ?Hsame; try done. right. left. done.
  - split; rewrite ?Hsame; try done. right. right. done.
Qed.

Lemma tracks_reply topic' n ms r evs v bus metrics p :
  matches topic' p = true →
  tracks topic' n ms r evs v →
  tracks topic' n ms r (evs ++ [Message bus metrics p])
         (call_step r v (Message bus metrics p)).
Proof.
  intros Hm [Ht Hn Hr Hreg Hs].
  assert (replies topic' (evs ++ [Message bus metrics p]) = replies topic' evs ++ [p])
    as Hsnoc by (by rewrite replies_snoc, Hm).
  assert (TimerFires r ∈ evs ++ [Message bus metrics p] ↔ TimerFires r ∈ evs) as Hin.
  { rewrite elem_of_app, list_elem_of_singleton. split; [by intros [?|[=]]|by left]. }
  set (rs := replies topic' evs) in *.
  simpl. unfold deliver. rewrite Hreg, Ht, Hm, Hn, Hr.
  destruct (complete n rs) eqn:Hc; simpl.
  - (* the handler is gone *)
    split; rewrite ?Hsnoc, ?Hin; try done.
    + by rewrite collected_snoc_complete.
    + by rewrite complete_snoc_true.
    + rewrite complete_snoc_true, take_replies_snoc_complete by done.
      destruct Hs as [(_ & _ & ? & _)|[?|?]]; [congruence|by right; left|by right; right].
  - unfold collected at 1. rewrite Hc.
    destruct (Nat.eqb (length (rs ++ [p])) n) eqn:Hlen.
    + apply Nat.eqb_eq in Hlen.
      assert (complete n (rs ++ [p]) = true) as Hc'.
      { unfold complete. apply andb_true_iff. rewrite Nat.ltb_lt, Nat.leb_le.
        rewrite length_app in *. simpl in *. lia. }
      assert (take n (rs ++ [p]) = rs ++ [p]) as Htake by (apply take_ge; lia).
      split; simpl; rewrite ?Hsnoc, ?Hin, ?Hc'; try done.
      * rewrite Hr. unfold collected. by rewrite Hc, Hc', Htake.
      * rewrite Hr. unfold collected at 1 2. rewrite Hc, Htake.
        destruct Hs as [(Hh & Hp & _ & _)|[(_ & _ & ?)|(Hh & Hp & Hyes)]];
          [|congruence|]; rewrite Hh, Hp; simpl.
        -- right. left. done.
        -- right. right. done.
    + apply Nat.eqb_neq in Hlen.
      assert (complete n (rs ++ [p]) = false) as Hc'.
      { unfold complete in *. apply andb_false_iff.
        apply andb_false_iff in Hc. rewrite Nat.ltb_ge, Nat.leb_gt in *.
        rewrite length_app in *. simpl in *. lia. }
      split; simpl; rewrite ?Hsnoc, ?Hin, ?Hc'; try done.
      * rewrite Hr. unfold collected. by rewrite Hc, Hc'.
      * destruct Hs as [?|[(_ & _ & ?)|?]]; [by left|congruence|by right; right].
Qed.

Lemma tracks_step topic' n ms r evs ev v :
  tracks topic' n ms r evs v → tracks topic' n ms r (evs ++ [ev]) (call_step r v ev).
Proof.
  intros Hv. destruct ev as [bus metrics p|r'|bus answer topic'' ms'].
  - destruct (matches topic' p) eqn:Hm.
    + by apply tracks_reply.
    + by apply tracks_other.
  - destruct (decide (r' = r)) as [->|Hne].
    + by apply tracks_timer.
    + by apply tracks_other.
  - by apply tracks_other.
Qed.

Lemma tracks_run topic' n ms r evs :
  tracks topic' n ms r evs (fold_left (call_step r) evs (fresh_call topic' n ms, true)).
Proof.
  induction evs as [|ev evs IH] using rev_ind; [apply tracks_fresh|].
  rewrite fold_left_app. simpl. by apply tracks_step.
Qed.

(** A settled promise stays as it is. *)
Lemma call_step_settled r v ev :
  promise (fst v) ≠ Pending → promise (fst (call_step r v ev)) = promise (fst v).
Proof.
  intros Hp. destruct ev as [bus metrics p|r'|]; simpl; [| |done].
  - unfold deliver. destruct (snd v); [|done]. destruct (matches _ _); [|done].
    destruct (Nat.eqb _ _); simpl; [|done]. by destruct (promise (fst v)).
  - destruct (bool_decide _); [|done]. unfold expire.
    destruct (timeoutHandle (fst v)); simpl; try done. by destruct (promise (fst v)).
Qed.

Lemma call_run_settled r evs v :
  promise (fst v) ≠ Pending →
  promise (fst (fold_left (call_step r) evs v)) = promise (fst v).
Proof.
  revert v. induction evs as [|ev evs IH]; intros v Hp; simpl; [done|].
  rewrite IH; [by apply call_step_settled|]. by rewrite call_step_settled.
Qed.

Lemma promise_of_view st r v :
  view r st = Some v → promise_of st (OfCall r) = promise (fst v).
Proof.
  unfold view, promise_of. destruct (calls st !! r); simpl; [|done].
  by intros [= <-].
Qed.

Lemma matches_spec topic' p :
  matches topic' p = true ↔ isReply p = Some true ∧ topic p = topic'.
Proof.
  unfold matches, is_reply.
  rewrite negb_true_iff, orb_false_iff, !negb_false_iff, bool_decide_eq_true.
  destruct (isReply p) as [[]|]; intuition congruence.
Qed.

(** From the call on, the record of call [r] follows [tracks]. *)
Lemma call_tracked bus e answer topic' ms st st1 r evs :
  wf st →
  awaitAllProcMessagesReplies bus e answer topic' ms st = (st1, OfCall r) →
  ∃ self procList v,
    getCurrentProcId e = Ok self ∧ getProcList e answer = Ok procList ∧
    r = length (calls st) ∧ wf st1 ∧
    view r st1 = Some (fresh_call topic' (length procList) ms, true) ∧
    view r (run e evs st1) = Some v ∧
    promise_of (run e evs st1) (OfCall r) = promise (fst v) ∧
    responses_of r (run e evs st1) = responses (fst v) ∧
    tracks topic' (length procList) ms r evs v.
Proof.
  intros Hwf Hcall.
  pose proof (awaitAllProcMessagesReplies_wf bus e answer topic' ms st Hwf) as Hwf1.
  pose proof (awaitAllProcMessagesReplies_fresh bus e answer topic' ms st r) as Hfresh.
  rewrite Hcall in Hwf1, Hfresh. simpl in *.
  destruct (Hfresh eq_refl) as (self & procList & Hself & Hlist & Hr & Hv).
  exists self, procList, (fold_left (call_step r) evs (fresh_call topic' (length procList) ms, true)).
  pose proof (view_run e evs st1 r _ Hwf1 Hv) as Hrun.
  split_and!; try done.
  - by apply promise_of_view.
  - unfold responses_of. unfold view in Hrun.
    destruct (calls (run e evs st1) !! r); simpl in *; [|done].
    by injection Hrun as <-.
  - apply tracks_run.
Qed.

Lemma run_app e evs evs' st : run e (evs ++ evs') st = run e evs' (run e evs st).
Proof. apply fold_left_app. Qed.

Lemma run_snoc e evs ev st : run e (evs ++ [ev]) st = step e (run e evs st) ev.
Proof. by rewrite run_app. Qed.

(** When the timer fires before the call is complete, the call is and
    stays rejected with ['timeout']. *)
Lemma rejected_after_timer bus e answer topic' ms st st1 r procList evs evs' :
  wf st →
  awaitAllProcMessagesReplies bus e answer topic' ms st = (st1, OfCall r) →
  getProcList e answer = Ok procList →
  TimerFires r ∉ evs →
  complete (length procList) (replies topic' evs) = false →
  promise_of (run e (evs ++ TimerFires r :: evs') st1) (OfCall r)
    = Rejected (ThrownString "timeout").
Proof.
  intros Hwf Hcall Hlist Hno Hc.
  destruct (call_tracked _ _ _ _ _ _ _ _ evs Hwf Hcall)
    as (self & procList' & v & _ & Hlist' & _ & Hwf1 & _ & Hv & _ & _ & Htr).
  rewrite Hlist in Hlist'. injection Hlist' as <-.
  rewrite run_app.
  pose proof (run_wf e evs st1 Hwf1) as Hwf2.
  pose proof (view_run e (TimerFires r :: evs') _ r v Hwf2 Hv) as Hv'.
  rewrite (promise_of_view _ _ _ Hv'). simpl.
  rewrite bool_decide_eq_true_2 by done.
  destruct Htr as [_ _ _ _ [(Hh & Hp & _ & _)|[(_ & _ & ?)|(_ & _ & ?)]]];
    [|congruence|done].
  assert (promise (fst (expire v)) = Rejected (ThrownString "timeout")) as Hrej.
  { unfold expire. rewrite Hh. simpl. by rewrite Hp. }
  rewrite call_run_settled; [done|]. by rewrite Hrej.
Qed.

(** ** Targets of a broadcast *)

Lemma targets_cons proc procList :
  targets (proc :: procList) =
    match pm_id proc with
    | Some n => if truthy_number n then n :: targets procList else targets procList
    | None => targets procList
    end.
Proof.
  unfold targets. simpl. destruct (pm_id proc) as [n|]; [|done].
  by destruct (truthy_number n).
Qed.

Lemma length_targets procList : length (targets procList) ≤ length procList.
Proof.
  induction procList as [|proc procList IH]; [done|].
  rewrite targets_cons. destruct (pm_id proc) as [n|]; simpl; [|lia].
  destruct (truthy_number n); simpl; lia.
Qed.

Lemma length_targets_falsy procList proc :
  proc ∈ procList → falsy_pm_id proc → length (targets procList) < length procList.
Proof.
  intros Hin Hfalsy. induction procList as [|proc' procList IH]; [by apply elem_of_nil in Hin|].
  rewrite targets_cons. apply elem_of_cons in Hin as [<-|Hin].
  - pose proof (length_targets procList).
    destruct Hfalsy as [->| ->]; simpl; lia.
  - specialize (IH Hin). destruct (pm_id proc') as [n|]; simpl; [|lia].
    destruct (truthy_number n); simpl; lia.
Qed.

Lemma targets_truthy procList : Forall (fun n => truthy_number n = true) (targets procList).
Proof.
  induction procList as [|proc procList IH]; [constructor|].
  rewrite targets_cons. destruct (pm_id proc) as [n|]; [|done].
  destruct (truthy_number n) eqn:E; [|done]. by constructor.
Qed.

(** ** The reply *)

Lemma sendProcReply_Ok bus e request data' st st' :
  sendProcReply bus e request data' st = Ok st' →
  ∃ self to,
    getCurrentProcId e = Ok self ∧ replyTo request = Some to ∧
    st' = with_sent (sent st ++ [{| target := to;
                                    packet := reply_packet self request data';
                                    send_err := bus to |}]) st.
Proof.
  unfold sendProcReply. destruct (getCurrentProcId e) as [self|]; [|done].
  destruct (replyTo request) as [to|] eqn:Hto; [|done].
  intros [= <-]. exists self, to. split_and!; try done.
  unfold sendDataToProcessId, reply_packet. by rewrite Hto.
Qed.

(** ** The responder inside [emit] *)

Lemma handler_sent r p st : sent (handler r p st) = sent st.
Proof.
  unfold handler. destruct (calls st !! r) as [c|]; [|done].
  destruct (_ || _); [done|]. by destruct (Nat.eqb _ _).
Qed.

Lemma handleProcessMessage_sent bus e metrics p st :
  sent (handleProcessMessage bus e metrics p st) = sent st ++ responder_sends bus e metrics p.
Proof.
  unfold handleProcessMessage, responder_sends, sendProcReply, reply_packet.
  destruct (_ && _); [|by rewrite app_nil_r].
  destruct (getCurrentProcId e) as [self|]; [|by rewrite app_nil_r].
  destruct (replyTo p) as [to|]; [done|by rewrite app_nil_r].
Qed.

Lemma emit_fold_sent bus e metrics p ls st :
  NoDup ls →
  sent (fold_left (run_listener bus e metrics p) ls st) =
  sent st ++ (if bool_decide (L_handleProcessMessage ∈ ls)
              then responder_sends bus e metrics p else []).
Proof.
  intros Hls. revert st. induction Hls as [|l ls Hnotin Hls IH]; intros st.
  { simpl. by rewrite app_nil_r. }
  cbn [fold_left]. rewrite IH. destruct l as [|r]; cbn [run_listener].
  - rewrite handleProcessMessage_sent, (bool_decide_eq_false_2 _ Hnotin), app_nil_r.
    rewrite bool_decide_eq_true_2; [done|]. apply elem_of_cons. by left.
  - rewrite handler_sent. f_equal.
    apply (f_equal (fun b : bool => if b then _ else _)).
    apply bool_decide_ext. rewrite elem_of_cons. intuition congruence.
Qed.

Lemma step_responder e st ev :
  L_handleProcessMessage ∈ listeners st → L_handleProcessMessage ∈ listeners (step e st ev).
Proof.
  intros Hin. destruct ev as [bus metrics p|r|bus answer topic' ms]; simpl.
  - unfold emit_message. generalize (listeners st) at 1. intros ls.
    revert st Hin. induction ls as [|l ls IH]; intros st Hin; simpl; [done|].
    apply IH. destruct l as [|r]; simpl.
    + by rewrite handleProcessMessage_listeners.
    + by apply handler_listeners_ne.
  - by rewrite timer_fires_listeners.
  - destruct (awaitAllProcMessagesReplies_cases bus e answer topic' ms st)
      as [(_ & -> & _)|(_ & _ & _ & _ & _ & -> & _)]; [done|].
    apply elem_of_app. by left.
Qed.

Lemma run_responder e evs st :
  L_handleProcessMessage ∈ listeners st → L_handleProcessMessage ∈ listeners (run e evs st).
Proof.
  revert st. induction evs as [|ev evs IH]; intros st Hin; simpl; [done|].
  by apply IH, step_responder.
Qed.

Lemma reachable_wf e st : reachable e st → wf st.
Proof. intros [evs ->]. apply run_wf, init_wf. Qed.

Lemma reachable_responder e st :
  isClusterMode e = true → reachable e st → L_handleProcessMessage ∈ listeners st.
Proof.
  intros Hmode [evs ->]. apply run_responder. unfold init. rewrite Hmode. simpl.
  apply elem_of_cons. by left.
Qed.

Lemma elem_of_targets proc procList n :
  proc ∈ procList → pm_id proc = Some n → truthy_number n = true → n ∈ targets procList.
Proof.
  intros Hin Hid Hn. unfold targets. apply list_elem_of_omap. exists proc.
  by rewrite Hid, Hn.
Qed.


(** * The claims *)

(** C1 (the code falls short of the claim).  When the broadcast targets no
    process the expected count is [0], and the claim wants the call resolved
    at once with an empty sequence.  [handler] compares
    [responses.length === procLength] only after a push, so with
    [procLength = 0] the promise is never fulfilled, whatever arrives: it
    stays pending until the timer fires and is then rejected with
    ['timeout']. *)
Theorem C1_no_sibling_call_waits_for_the_timer bus e answer topic' ms st st1 r :
  wf st →
  getProcList e answer = Ok [] →
  awaitAllProcMessagesReplies bus e answer topic' ms st = (st1, OfCall r) →
  (∀ evs vs, promise_of (run e evs st1) (OfCall r) ≠ Fulfilled vs) ∧
  (∀ evs, TimerFires r ∉ evs → promise_of (run e evs st1) (OfCall r) = Pending) ∧
  (∀ evs evs', TimerFires r ∉ evs →
     promise_of (run e (evs ++ TimerFires r :: evs') st1) (OfCall r)
       = Rejected (ThrownString "timeout")).
Proof.
  intros Hwf Hlist Hcall.
  assert (∀ evs, ∃ v, promise_of (run e evs st1) (OfCall r) = promise (fst v) ∧
                      tracks topic' 0 ms r evs v) as Htr.
  { intros evs. destruct (call_tracked _ _ _ _ _ _ _ _ evs Hwf Hcall)
      as (self & procList & v & _ & Hlist' & _ & _ & _ & _ & Hp & _ & Htr).
    rewrite Hlist in Hlist'. injection Hlist' as <-. by exists v. }
  split_and!.
  - intros evs vs. destruct (Htr evs) as (v & -> & [_ _ _ _ Hs]).
    destruct Hs as [(_ & -> & _)|[(_ & _ & Hc)|(_ & -> & _)]]; done.
  - intros evs Hno. destruct (Htr evs) as (v & -> & [_ _ _ _ Hs]).
    destruct Hs as [(_ & -> & _)|[(_ & _ & Hc)|(_ & _ & ?)]]; done.
  - intros evs evs' Hno. by eapply rejected_after_timer.
Qed.

(** C2, the counterexample.  After the timeout of its first call worker 1
    still has that call's [handler] registered; and the reply of worker 2 to
    the first request, arriving during the second call (which was broadcast
    to worker 1 alone), fulfils the second call. *)
Lemma C2_counterexample :
  let e := Example.worker "1" in
  let st := run e Example.expired (init e) in
  promise_of st (OfCall 0) = Rejected (ThrownString "timeout") ∧
  L_handler 0 ∈ listeners st ∧
  map target (sent (run e Example.asked_again st)) = [Num 1; Num 2; Num 1; Num 1] ∧
  promise_of (run e Example.asked_again st) (OfCall 1) = Fulfilled [Example.reply_of 2].
Proof.
  simpl. split_and!; try reflexivity.
  apply elem_of_cons. right. apply elem_of_cons. by left.
Qed.

(** C2, amended.  A call that ended in ['timeout'] stays rejected whatever
    arrives or happens later.  A later call on the same topic is a call of
    its own ([r2 ≠ r]): what it collects and what it resolves with are
    determined by the packets arriving after it alone.  Among those, every
    packet with [isReply] true and the topic is kept, so a late reply to the
    expired call is counted towards the later one. *)
Theorem C2_timeout_is_final_next_call_matches_by_topic
    bus e answer topic' ms st st1 r evs bus2 answer2 ms2 st2 r2 :
  wf st →
  awaitAllProcMessagesReplies bus e answer topic' ms st = (st1, OfCall r) →
  promise_of (run e evs st1) (OfCall r) = Rejected (ThrownString "timeout") →
  awaitAllProcMessagesReplies bus2 e answer2 topic' ms2 (run e evs st1) = (st2, OfCall r2) →
  (∀ evs', promise_of (run e (evs ++ evs') st1) (OfCall r)
             = Rejected (ThrownString "timeout")) ∧
  r2 ≠ r ∧
  ∃ procList2,
    getProcList e answer2 = Ok procList2 ∧
    (∀ evs2,
       responses_of r2 (run e evs2 st2)
         = collected (length procList2) (replies topic' evs2) ∧
       (TimerFires r2 ∉ evs2 →
        promise_of (run e evs2 st2) (OfCall r2)
          = if complete (length procList2) (replies topic' evs2)
            then Fulfilled (take (length procList2) (replies topic' evs2))
            else Pending)) ∧
    (∀ bus' metrics late,
       isReply late = Some true → topic late = topic' →
       responses_of r2 (step e st2 (Message bus' metrics late)) = [late]).
Proof.
  intros Hwf Hcall Hrej Hcall2.
  destruct (call_tracked _ _ _ _ _ _ _ _ evs Hwf Hcall)
    as (_ & _ & v & _ & _ & _ & Hwf1 & _ & Hv & Hp & _ & _).
  pose proof (run_wf e evs st1 Hwf1) as Hwf2.
  assert (∀ evs2, ∃ procList2 v2,
            getProcList e answer2 = Ok procList2 ∧
            r2 = length (calls (run e evs st1)) ∧
            promise_of (run e evs2 st2) (OfCall r2) = promise (fst v2) ∧
            responses_of r2 (run e evs2 st2) = responses (fst v2) ∧
            tracks topic' (length procList2) ms2 r2 evs2 v2) as Htr2.
  { intros evs2. destruct (call_tracked _ _ _ _ _ _ _ _ evs2 Hwf2 Hcall2)
      as (_ & procList2 & v2 & _ & ? & ? & _ & _ & _ & ? & ? & ?).
    by exists procList2, v2. }
  split_and!.
  - intros evs'. rewrite run_app.
    rewrite (promise_of_view _ _ _ (view_run e evs' _ r v Hwf2 Hv)).
    rewrite call_run_settled; rewrite <- Hp, Hrej; done.
  - destruct (Htr2 []) as (_ & _ & _ & -> & _).
    unfold view in Hv. destruct (calls (run e evs st1) !! r) eqn:E; [|done].
    apply lookup_lt_Some in E. lia.
  - destruct (Htr2 []) as (procList2 & _ & Hl2 & _).
    exists procList2. split_and!; [done| |].
    + intros evs2. destruct (Htr2 evs2) as (procList2' & v2 & Hl2' & _ & -> & -> & Htr).
      assert (procList2' = procList2) as -> by congruence.
      destruct Htr as [_ _ Hr _ Hs]. split; [done|]. intros Hno.
      destruct Hs as [(_ & -> & -> & _)|[(_ & -> & ->)|(_ & _ & ?)]]; done.
    + intros bus' metrics late Hreply Htopic.
      destruct (Htr2 [Message bus' metrics late])
        as (procList2' & v2 & Hl2' & _ & _ & Hrs & Htr).
      change (run e [Message bus' metrics late] st2)
        with (step e st2 (Message bus' metrics late)) in Hrs.
      rewrite Hrs. destruct Htr as [_ _ -> _ _].
      unfold replies, collected. simpl.
      rewrite (proj2 (matches_spec topic' late)) by done.
      by destruct (length procList2') as [|[|n]].
Qed.

(** C3, the counterexample.  Worker 2 answers the request of worker 1: the
    request has [originalProcId] 1, the reply has 2. *)
Lemma C3_counterexample : ¬ originalProcId_carried_unchanged.
Proof.
  intros H.
  specialize (H Example.bus (Example.worker "2") (request_packet (Num 1) "metrics-get")
                Example.metrics empty_state).
  simpl in H. specialize (H _ _ eq_refl eq_refl). simpl in H. discriminate H.
Qed.

(** C3, amended.  The reply [sendProcReply] sends carries in
    [originalProcId] the id of the process that replies; the request's
    [topic] and [replyTo] are carried unchanged and [isReply] is true.  So
    the reply's [originalProcId] is the request's exactly when the process
    answers a request of its own. *)
Theorem C3_reply_names_the_replying_process bus e request data' st st' :
  sendProcReply bus e request data' st = Ok st' →
  ∃ self to reply,
    getCurrentProcId e = Ok self ∧ replyTo request = Some to ∧
    sent st' = sent st ++ [{| target := to; packet := reply; send_err := bus to |}] ∧
    originalProcId reply = self ∧
    topic reply = topic request ∧ replyTo reply = replyTo request ∧
    isReply reply = Some true ∧
    (originalProcId reply = originalProcId request ↔ self = originalProcId request).
Proof.
  intros (self & to & Hself & Hto & ->)%sendProcReply_Ok.
  exists self, to, (reply_packet self request data'). by split_and!.
Qed.

(** C4.  When fewer kept replies than the expected count have arrived by the
    time the timer of the call fires, the call is rejected with ['timeout']
    and stays so whatever happens afterwards: the caller, and with it the
    caller of [getAggregateMetrics], sees the rejection reason only, none of
    the replies collected in [responses]. *)
Theorem C4_timeout_is_all_or_nothing bus e answer topic' ms st st1 r procList evs evs' :
  wf st →
  getProcList e answer = Ok procList →
  awaitAllProcMessagesReplies bus e answer topic' ms st = (st1, OfCall r) →
  TimerFires r ∉ evs →
  length (replies topic' evs) < length procList →
  promise_of (run e (evs ++ TimerFires r :: evs') st1) (OfCall r)
    = Rejected (ThrownString "timeout") ∧
  metrics_of (run e (evs ++ TimerFires r :: evs') st1) (AfterCall (OfCall r))
    = Rejected (ThrownString "timeout").
Proof.
  intros Hwf Hlist Hcall Hno Hlt.
  assert (promise_of (run e (evs ++ TimerFires r :: evs') st1) (OfCall r)
          = Rejected (ThrownString "timeout")) as Hrej.
  { eapply rejected_after_timer; try done.
    unfold complete. apply andb_false_iff. right. apply Nat.leb_gt. lia. }
  split; [done|]. unfold metrics_of. by rewrite Hrej.
Qed.

(** C5.  Whatever list [pm2.list] calls back with and whatever the bus
    reports for each send, [broadcastToAll] returns the length of the list
    filtered by name and online status; when that list is empty the state
    (and so the log of sends) is unchanged. *)
Theorem C5_broadcast_returns_list_length bus e l p st :
  ∃ st', broadcastToAll bus e (None, l) p st
           = Ok (st', length (List.filter (same_name_and_online e) l)) ∧
         (List.filter (same_name_and_online e) l = [] → st' = st).
Proof.
  unfold broadcastToAll. simpl. eexists. split; [done|]. by intros ->.
Qed.

(** C6.  While a call is outstanding (its promise pending), an inbound
    packet is appended to [responses] exactly when its [isReply] is true and
    its topic is the call's; any other packet leaves the record of the call
    as it is.  And when the call is fulfilled, the sequence it resolves with
    is the packets with [isReply] true and the call's topic among those
    received since the call, in arrival order, and nothing else. *)
Theorem C6_counted_iff_reply_on_topic bus e answer topic' ms st st1 r evs bus' metrics p :
  wf st →
  awaitAllProcMessagesReplies bus e answer topic' ms st = (st1, OfCall r) →
  promise_of (run e evs st1) (OfCall r) = Pending →
  (isReply p = Some true ∧ topic p = topic' →
   responses_of r (step e (run e evs st1) (Message bus' metrics p))
     = responses_of r (run e evs st1) ++ [p]) ∧
  (¬ (isReply p = Some true ∧ topic p = topic') →
   calls (step e (run e evs st1) (Message bus' metrics p)) !! r
     = calls (run e evs st1) !! r) ∧
  (∀ vs, promise_of (step e (run e evs st1) (Message bus' metrics p)) (OfCall r)
           = Fulfilled vs →
         vs = List.filter
                (fun q => bool_decide (isReply q = Some true ∧ topic q = topic'))
                (inbound (evs ++ [Message bus' metrics p]))).
Proof.
  intros Hwf Hcall Hpending.
  destruct (call_tracked _ _ _ _ _ _ _ _ evs Hwf Hcall)
    as (self & procList & v & _ & Hl & _ & Hwf1 & _ & Hv & Hp & Hrs & Htr).
  destruct (call_tracked _ _ _ _ _ _ _ _ (evs ++ [Message bus' metrics p]) Hwf Hcall)
    as (_ & procList' & v' & _ & Hl' & _ & _ & _ & Hv' & Hp' & Hrs' & Htr').
  assert (procList' = procList) as -> by congruence.
  rewrite run_snoc in Hv', Hp', Hrs'.
  rewrite Hpending in Hp.
  assert (complete (length procList) (replies topic' evs) = false) as Hc.
  { destruct Htr as [_ _ _ _ [(_ & _ & ? & _)|[(_ & ? & _)|(_ & ? & _)]]];
      [done|congruence..]. }
  pose proof (view_step e _ (Message bus' metrics p) r v (run_wf e evs st1 Hwf1) Hv) as Hstep.
  change (call_step r v (Message bus' metrics p)) with (deliver p v) in Hstep.
  rewrite Hstep in Hv'. injection Hv' as <-.
  destruct Htr as [Ht Hn Hr Hreg _].
  split_and!.
  - intros Hm%matches_spec. rewrite Hrs', Hrs. simpl. unfold deliver.
    rewrite Hreg, Hc, Ht, Hm. simpl. by destruct (Nat.eqb _ _).
  - intros Hm. assert (matches topic' p = false) as Hm'.
    { destruct (matches topic' p) eqn:E; [|done]. by apply matches_spec in E. }
    assert (deliver p v = v) as Hd.
    { unfold deliver. rewrite Ht, Hm'. by destruct (snd v). }
    rewrite Hd, <- Hv in Hstep. unfold view in Hstep.
    destruct (calls (step e (run e evs st1) (Message bus' metrics p)) !! r) as [c'|],
             (calls (run e evs st1) !! r) as [c|]; simpl in Hstep; try done.
    by injection Hstep as -> _.
  - intros vs Hful. rewrite Hp' in Hful.
    destruct Htr' as [_ _ _ _ [(_ & ? & _)|[(_ & Hful' & Hc')|(_ & ? & _)]]];
      [congruence| |congruence].
    rewrite Hful in Hful'. injection Hful' as ->.
    assert (List.filter (fun q => bool_decide (isReply q = Some true ∧ topic q = topic'))
              (inbound (evs ++ [Message bus' metrics p]))
            = replies topic' (evs ++ [Message bus' metrics p])) as ->.
    { unfold replies. apply List.filter_ext. intros q.
      destruct (matches topic' q) eqn:E.
      - apply bool_decide_eq_true. by apply matches_spec.
      - apply bool_decide_eq_false. intros Hq%matches_spec. congruence. }
    apply take_ge. rewrite replies_snoc in *. simpl in *.
    unfold complete in Hc, Hc'. apply andb_true_iff in Hc' as [Hpos%Nat.ltb_lt Hle].
    apply andb_false_iff in Hc as [Hc%Nat.ltb_ge|Hc%Nat.leb_gt]; [lia|].
    rewrite length_app in *. destruct (matches topic' p); simpl in *; lia.
Qed.

(** C7.  In a process that knows its id, [sendProcReply] on a request
    without [replyTo] throws ['ReplyTo is undefined'] and nothing is sent
    (neither by it nor by [handleProcessMessage], which calls it); on a
    request with [replyTo] it sends one packet, a reply, to that id. *)
Theorem C7_reply_needs_a_target bus e self request data' st :
  getCurrentProcId e = Ok self →
  match replyTo request with
  | None =>
      sendProcReply bus e request data' st = Throw (ThrownError "ReplyTo is undefined") ∧
      sent (handleProcessMessage bus e data' request st) = sent st
  | Some to =>
      ∃ st' reply,
        sendProcReply bus e request data' st = Ok st' ∧
        sent st' = sent st ++ [{| target := to; packet := reply; send_err := bus to |}] ∧
        isReply reply = Some true ∧ topic reply = topic request
  end.
Proof.
  intros Hself. destruct (replyTo request) as [to|] eqn:Hto.
  - exists (with_sent (sent st ++ [{| target := to;
                                      packet := reply_packet self request data';
                                      send_err := bus to |}]) st),
           (reply_packet self request data').
    split_and!; try done.
    unfold sendProcReply. rewrite Hself, Hto. unfold reply_packet. by rewrite Hto.
  - assert (sendProcReply bus e request data' st
            = Throw (ThrownError "ReplyTo is undefined")) as Hthrow.
    { unfold sendProcReply. by rewrite Hself, Hto. }
    split; [done|]. unfold handleProcessMessage. rewrite Hthrow.
    by destruct (_ && _).
Qed.

(** C8.  Outside cluster mode [getAggregateMetrics] leaves the state, and
    with it the log of sends, untouched, and its promise is fulfilled with
    [client.register]. *)
Theorem C8_single_process_returns_local_registry bus e answer ms st :
  isClusterMode e = false →
  ∃ mp, getAggregateMetrics bus e answer ms st = (st, mp) ∧
        sent (fst (getAggregateMetrics bus e answer ms st)) = sent st ∧
        ∀ st', metrics_of st' mp = Fulfilled client_register.
Proof.
  intros Hmode. unfold getAggregateMetrics. rewrite Hmode.
  by exists (Immediately client_register).
Qed.

(** C9.  [broadcastToAll] returns the length of the whole filtered list but
    sends only to the entries whose [pm_id] is truthy ([targets]).  With an
    entry whose [pm_id] is undefined or [0] the count is strictly larger than
    the number of sends; and if no more kept replies arrive than requests
    were sent (each process reached answers at most once), the call is never
    fulfilled. *)
Theorem C9_counted_but_not_sent bus e answer topic' ms st st1 r procList proc :
  wf st →
  getProcList e answer = Ok procList →
  proc ∈ procList → falsy_pm_id proc →
  awaitAllProcMessagesReplies bus e answer topic' ms st = (st1, OfCall r) →
  (∀ p st0, ∃ st0',
     broadcastToAll bus e answer p st0 = Ok (st0', length procList) ∧
     sent st0' = sent st0 ++
       map (fun n => {| target := n; packet := p; send_err := bus n |}) (targets procList)) ∧
  Forall (fun n => truthy_number n = true) (targets procList) ∧
  length (targets procList) < length procList ∧
  calls st1 !! r = Some (fresh_call topic' (length procList) ms) ∧
  length (sent st1) = length (sent st) + length (targets procList) ∧
  (∀ evs vs, length (replies topic' evs) ≤ length (targets procList) →
     promise_of (run e evs st1) (OfCall r) ≠ Fulfilled vs).
Proof.
  intros Hwf Hlist Hin Hfalsy Hcall.
  pose proof (length_targets_falsy _ _ Hin Hfalsy) as Hlt.
  split_and!; [| |done| | |].
  - intros p st0. unfold broadcastToAll. rewrite Hlist. eexists. split; [done|].
    apply forEach_send_sent.
  - apply targets_truthy.
  - destruct (call_tracked _ _ _ _ _ _ _ _ [] Hwf Hcall)
      as (_ & procList' & _ & _ & Hl & _ & _ & Hv & _).
    assert (procList' = procList) as -> by congruence.
    unfold view in Hv. destruct (calls st1 !! r); simpl in Hv; [|done].
    by injection Hv as -> _.
  - destruct (awaitAllProcMessagesReplies_cases bus e answer topic' ms st)
      as [(Hn & _)|(self & procList' & _ & Hl & _ & _ & _ & Hs)];
      rewrite Hcall in *; simpl in *; [done|].
    assert (procList' = procList) as -> by congruence.
    by rewrite Hs, length_app, length_map.
  - intros evs vs Hle.
    destruct (call_tracked _ _ _ _ _ _ _ _ evs Hwf Hcall)
      as (_ & procList' & v & _ & Hl & _ & _ & _ & _ & -> & _ & Htr).
    assert (procList' = procList) as -> by congruence.
    destruct Htr as [_ _ _ _ [(_ & -> & _)|[(_ & _ & Hc)|(_ & -> & _)]]]; [done| |done].
    unfold complete in Hc. apply andb_true_iff in Hc as [_ Hc%Nat.leb_le]. lia.
Qed.

(** C10 (the code falls short of the claim).  Worker 0, the first worker
    pm2 starts, broadcasts: the filter keeps its own entry and the call
    expects 2 replies, but the only request goes to worker 1, none to its own
    process id.  With each worker reached answering once, the call can only
    end in the timeout. *)
Theorem C10_worker_zero_gets_no_request :
  let e := Example.worker "0" in
  let l := [Example.online 0; Example.online 1] in
  let st1 := fst (awaitAllProcMessagesReplies Example.bus e (None, l) "metrics-get"
                    (Num 1000) (init e)) in
  isClusterMode e = true ∧
  getCurrentProcId e = Ok (Num 0) ∧
  getProcList e (None, l) = Ok l ∧
  calls st1 !! 0 = Some (fresh_call "metrics-get" 2 (Num 1000)) ∧
  map target (sent st1) = [Num 1] ∧
  promise_of (run e [Message Example.bus Example.metrics
                       (reply_packet (Num 1) (request_packet (Num 0) "metrics-get")
                                     Example.metrics);
                     TimerFires 0] st1) (OfCall 0)
    = Rejected (ThrownString "timeout").
Proof. simpl. by split_and!. Qed.

(** What the code does for a worker whose id is truthy.  In cluster mode,
    when [pm2.list] lists the broadcasting worker itself (its name, online,
    its own id) the filter keeps it, so it is counted in [procLength]; the
    request is also sent to its own id; delivered there,
    [handleProcessMessage] answers it with one reply addressed to the same
    id, and that reply is one [handler] keeps. *)
Lemma originator_with_truthy_id_in_fan_out bus e l ms st st1 r self proc :
  isClusterMode e = true → reachable e st →
  getCurrentProcId e = Ok self → truthy_number self = true →
  proc ∈ l → same_name_and_online e proc = true → pm_id proc = Some self →
  awaitAllProcMessagesReplies bus e (None, l) "metrics-get" ms st = (st1, OfCall r) →
  let request := request_packet self "metrics-get" in
  ∃ procList,
    getProcList e (None, l) = Ok procList ∧
    proc ∈ procList ∧
    calls st1 !! r = Some (fresh_call "metrics-get" (length procList) ms) ∧
    {| target := self; packet := request; send_err := bus self |} ∈ sent st1 ∧
    ∀ evs bus' metrics,
      sent (step e (run e evs st1) (Message bus' metrics request))
        = sent (run e evs st1) ++
          [{| target := self; packet := reply_packet self request metrics;
              send_err := bus' self |}] ∧
      matches "metrics-get" (reply_packet self request metrics) = true.
Proof.
  intros Hmode Hreach Hself Htruthy Hin Hkeep Hid Hcall request.
  pose proof (reachable_wf _ _ Hreach) as Hwf.
  exists (List.filter (same_name_and_online e) l).
  assert (proc ∈ List.filter (same_name_and_online e) l) as Hin'.
  { apply list_elem_of_In, List.filter_In. split; [by apply list_elem_of_In|done]. }
  destruct (call_tracked _ _ _ _ _ _ _ _ [] Hwf Hcall)
    as (self' & procList & _ & Hself' & Hl & _ & Hwf1 & Hv & _).
  simpl in Hl. injection Hl as <-.
  assert (self' = self) as -> by congruence.
  split_and!; [done|done| | |].
  - unfold view in Hv. destruct (calls st1 !! r); simpl in Hv; [|done].
    by injection Hv as -> _.
  - destruct (awaitAllProcMessagesReplies_cases bus e (None, l) "metrics-get" ms st)
      as [(Hn & _)|(self' & procList & Hself'' & Hl & _ & _ & _ & Hs)];
      rewrite Hcall in *; simpl in *; [done|].
    injection Hl as <-. assert (self' = self) as -> by congruence.
    rewrite Hs. apply elem_of_app. right.
    apply (list_elem_of_fmap_2 (fun n => {| target := n; packet := request_packet self "metrics-get"; send_err := bus n |})).
    by eapply elem_of_targets.
  - intros evs bus' metrics.
    pose proof (run_wf e evs st1 Hwf1) as [Hnd _].
    assert (L_handleProcessMessage ∈ listeners (run e evs st1)) as Hresp.
    { apply run_responder.
      destruct (awaitAllProcMessagesReplies_cases bus e (None, l) "metrics-get" ms st)
        as [(_ & Hls & _)|(_ & _ & _ & _ & _ & Hls & _)];
        rewrite Hcall in Hls; simpl in Hls; rewrite Hls.
      - by apply (reachable_responder e).
      - apply elem_of_app. left. by apply (reachable_responder e). }
    split; [|done]. simpl. unfold emit_message.
    rewrite emit_fold_sent, (bool_decide_eq_true_2 _ Hresp) by done.
    unfold responder_sends. by rewrite Hself.
Qed.


(** * Further properties of the protocol *)

(** ** The reply correlator *)

(** X1.  A call that expects [n > 0] replies is fulfilled when the [n]-th
    kept packet arrives before its timer fires: with the first [n] kept
    packets, in arrival order.  Its timer is then cleared, and nothing that
    happens afterwards (more replies, the timer event) changes the
    outcome. *)
Theorem X1_fulfilled_with_first_replies_in_order
    bus e answer topic' ms st st1 r procList evs evs' :
  wf st →
  getProcList e answer = Ok procList →
  awaitAllProcMessagesReplies bus e answer topic' ms st = (st1, OfCall r) →
  TimerFires r ∉ evs →
  0 < length procList ≤ length (replies topic' evs) →
  promise_of (run e evs st1) (OfCall r)
    = Fulfilled (take (length procList) (replies topic' evs)) ∧
  timeoutHandle <$> calls (run e evs st1) !! r = Some Cleared ∧
  promise_of (run e (evs ++ evs') st1) (OfCall r)
    = Fulfilled (take (length procList) (replies topic' evs)).
Proof.
  intros Hwf Hlist Hcall Hno [Hpos Hle].
  destruct (call_tracked _ _ _ _ _ _ _ _ evs Hwf Hcall)
    as (_ & procList' & v & _ & Hl & _ & Hwf1 & _ & Hv & Hp & _ & Htr).
  assert (procList' = procList) as -> by congruence.
  assert (complete (length procList) (replies topic' evs) = true) as Hc.
  { unfold complete. apply andb_true_iff. by rewrite Nat.ltb_lt, Nat.leb_le. }
  destruct Htr as [_ _ _ _ [(_ & _ & ? & _)|[(Hh & Hful & _)|(_ & _ & ?)]]];
    [congruence| |done].
  split_and!.
  - by rewrite Hp.
  - unfold view in Hv. destruct (calls (run e evs st1) !! r); simpl in *; [|done].
    injection Hv as <-. simpl in Hh. by rewrite Hh.
  - rewrite run_app.
    rewrite (promise_of_view _ _ _ (view_run e evs' _ r v (run_wf e evs st1 Hwf1) Hv)).
    rewrite call_run_settled; rewrite Hful; done.
Qed.

(** X2.  Over any run of events, timer included, the handler of a call
    stays registered exactly as long as the call is not complete, and the
    call has collected every kept packet up to the one that completes it:
    the timeout neither removes the handler nor stops the collecting. *)
Theorem X2_handler_registered_until_complete
    bus e answer topic' ms st st1 r procList evs :
  wf st →
  getProcList e answer = Ok procList →
  awaitAllProcMessagesReplies bus e answer topic' ms st = (st1, OfCall r) →
  (L_handler r ∈ listeners (run e evs st1)
   ↔ complete (length procList) (replies topic' evs) = false) ∧
  responses_of r (run e evs st1) = collected (length procList) (replies topic' evs).
Proof.
  intros Hwf Hlist Hcall.
  destruct (call_tracked _ _ _ _ _ _ _ _ evs Hwf Hcall)
    as (_ & procList' & v & _ & Hl & _ & _ & _ & Hv & _ & Hrs & Htr).
  assert (procList' = procList) as -> by congruence.
  destruct Htr as [_ _ Hr Hreg _]. split; [|by rewrite Hrs].
  unfold view, registered in Hv.
  destruct (calls (run e evs st1) !! r); simpl in Hv; [|done].
  injection Hv as <-. simpl in Hreg.
  destruct (complete _ _); simpl in Hreg.
  - apply bool_decide_eq_false in Hreg. split; [done|discriminate].
  - apply bool_decide_eq_true in Hreg. done.
Qed.

(** X3.  When the executor of [awaitAllProcMessagesReplies] throws, because
    [process.env.pm_id] is not set or because [pm2.list] calls back with an
    error, nothing is sent, no listener is registered and no call (so no
    timer) is created; the error ends as an unhandled rejection and the
    promise handed to the caller is never settled, so that in cluster mode
    [getAggregateMetrics] stays pending for ever. *)
Theorem X3_executor_failure_leaves_promise_pending bus e answer topic' ms st err :
  getCurrentProcId e = Throw err ∨
  ((∃ self, getCurrentProcId e = Ok self) ∧ fst answer = Some err) →
  awaitAllProcMessagesReplies bus e answer topic' ms st = (unhandled err st, NeverSettled) ∧
  sent (unhandled err st) = sent st ∧
  listeners (unhandled err st) = listeners st ∧
  calls (unhandled err st) = calls st ∧
  (isClusterMode e = true →
   ∀ timeout evs,
     metrics_of (run e evs (fst (getAggregateMetrics bus e answer timeout st)))
                (snd (getAggregateMetrics bus e answer timeout st)) = Pending).
Proof.
  intros Hfail.
  assert (∀ topic'' ms', awaitAllProcMessagesReplies bus e answer topic'' ms' st
                         = (unhandled err st, NeverSettled)) as Hcall.
  { intros topic'' ms'. unfold awaitAllProcMessagesReplies, broadcastToAll, getProcList.
    destruct Hfail as [->|[[self ->] Herr]]; [done|].
    destruct answer as [[err'|] l]; simpl in Herr; [|done]. by injection Herr as ->. }
  split_and!; try done.
  intros Hmode timeout evs. unfold getAggregateMetrics. by rewrite Hmode, Hcall.
Qed.

(** X4.  A promise settles once: in any state of the event loop, a call
    that is fulfilled or rejected keeps that outcome through every later
    event. *)
Theorem X4_settled_for_good e st r evs :
  wf st →
  promise_of st (OfCall r) ≠ Pending →
  promise_of (run e evs st) (OfCall r) = promise_of st (OfCall r).
Proof.
  intros Hwf Hp.
  destruct (view r st) as [v|] eqn:Hv.
  - rewrite (promise_of_view _ _ _ (view_run e evs st r v Hwf Hv)).
    rewrite (promise_of_view _ _ _ Hv) in *. by apply call_run_settled.
  - unfold view, promise_of in *. by destruct (calls st !! r).
Qed.

(** ** The facade in cluster mode *)

(** X5.  In cluster mode [getAggregateMetrics] broadcasts on ['metrics-get']
    with a timer of 10000 ms unless a timeout is given; until that timer
    fires its promise is pending while replies are missing, and fulfilled
    with the aggregate of the [data] of the first [procLength] kept replies,
    in arrival order, once they are there. *)
Theorem X5_aggregate_of_reply_data bus e answer timeout st procList self evs :
  wf st →
  isClusterMode e = true →
  getCurrentProcId e = Ok self →
  getProcList e answer = Ok procList →
  let res := getAggregateMetrics bus e answer timeout st in
  let r := length (calls st) in
  TimerFires r ∉ evs →
  snd res = AfterCall (OfCall r) ∧
  calls (fst res) !! r
    = Some (fresh_call "metrics-get" (length procList) (default (Num 10000) timeout)) ∧
  metrics_of (run e evs (fst res)) (snd res)
    = if complete (length procList) (replies "metrics-get" evs)
      then Fulfilled (AggregatorRegistry_aggregate
                        (map data (take (length procList) (replies "metrics-get" evs))))
      else Pending.
Proof.
  intros Hwf Hmode Hself Hlist res r Hno. subst res r.
  set (ms := default (Num 10000) timeout).
  destruct (awaitAllProcMessagesReplies bus e answer "metrics-get" ms st) as [st1 p] eqn:Hcall.
  assert (getAggregateMetrics bus e answer timeout st = (st1, AfterCall p)) as ->.
  { unfold getAggregateMetrics. fold ms. by rewrite Hmode, Hcall. }
  cbn [fst snd].
  destruct (awaitAllProcMessagesReplies_cases bus e answer "metrics-get" ms st)
    as [(Hn & _)|(self' & procList' & _ & Hl & Hp & _ & Hcs & _)]; rewrite Hcall in *;
    cbn [fst snd] in *.
  { subst p. unfold awaitAllProcMessagesReplies, broadcastToAll in Hcall.
    rewrite Hself, Hlist in Hcall. done. }
  assert (procList' = procList) as -> by congruence. subst p.
  split_and!; [done| |].
  - rewrite Hcs. by apply list_lookup_middle.
  - destruct (call_tracked _ _ _ _ _ _ _ _ evs Hwf Hcall)
      as (_ & procList' & v & _ & Hl' & _ & _ & _ & _ & Hp & _ & Htr).
    assert (procList' = procList) as -> by congruence.
    unfold metrics_of. rewrite Hp.
    destruct Htr as [_ _ _ _ [(_ & -> & -> & _)|[(_ & -> & ->)|(_ & _ & ?)]]]; done.
Qed.

(** ** The responder *)

Lemma emit_message_sent bus e metrics p st :
  wf st →
  sent (emit_message bus e metrics p st) =
  sent st ++ (if bool_decide (L_handleProcessMessage ∈ listeners st)
              then responder_sends bus e metrics p else []).
Proof. intros [Hnd _]. by apply emit_fold_sent. Qed.

(** X6.  In cluster mode, whatever else is registered, a ['metrics-get']
    request that names its [replyTo] is answered exactly once: one packet is
    sent, to [replyTo], carrying the request's topic and [replyTo],
    [isReply] true, and the metrics JSON as [data] ([{}] when that is
    undefined). *)
Theorem X6_request_answered_exactly_once bus e metrics request st self to :
  isClusterMode e = true → reachable e st →
  getCurrentProcId e = Ok self →
  topic request = "metrics-get" → is_reply request = false →
  replyTo request = Some to →
  ∃ reply,
    sent (step e st (Message bus metrics request))
      = sent st ++ [{| target := to; packet := reply; send_err := bus to |}] ∧
    topic reply = "metrics-get" ∧ isReply reply = Some true ∧
    replyTo reply = Some to ∧ originalProcId reply = self ∧
    data reply = match metrics with JsUndefined => JsObject [] | _ => metrics end.
Proof.
  intros Hmode Hreach Hself Htopic Hreq Hto.
  exists (reply_packet self request metrics). split; [|by rewrite <- Htopic, <- Hto].
  simpl. rewrite emit_message_sent by (by eapply reachable_wf).
  rewrite bool_decide_eq_true_2 by (by apply (reachable_responder e)).
  unfold responder_sends. rewrite Htopic, Hreq, Hself, Hto.
  by rewrite bool_decide_eq_true_2.
Qed.

(** X7.  An inbound packet that is a reply, or whose topic is not
    ['metrics-get'], never makes the process send anything: replies are not
    answered, so no exchange of replies can start. *)
Theorem X7_replies_are_never_answered bus e metrics p st :
  wf st →
  is_reply p = true ∨ topic p ≠ "metrics-get" →
  sent (step e st (Message bus metrics p)) = sent st.
Proof.
  intros Hwf Hp. simpl. rewrite emit_message_sent by done.
  assert (responder_sends bus e metrics p = []) as ->.
  { unfold responder_sends. destruct Hp as [->|Hne].
    - by rewrite andb_false_r.
    - by rewrite bool_decide_eq_false_2. }
  destruct (bool_decide _); by rewrite app_nil_r.
Qed.

Lemma handler_unhandled r p st :
  unhandledRejections (handler r p st) = unhandledRejections st.
Proof.
  unfold handler. destruct (calls st !! r) as [c|]; [|done].
  destruct (_ || _); [done|]. by destruct (Nat.eqb _ _).
Qed.

Lemma emit_fold_unhandled bus e metrics p ls st :
  NoDup ls →
  unhandledRejections (fold_left (run_listener bus e metrics p) ls st) =
  if bool_decide (L_handleProcessMessage ∈ ls)
  then unhandledRejections (handleProcessMessage bus e metrics p st)
  else unhandledRejections st.
Proof.
  intros Hls. revert st. induction Hls as [|l ls Hnotin Hls IH]; intros st; [done|].
  cbn [fold_left]. rewrite IH. destruct l as [|r]; cbn [run_listener].
  - rewrite (bool_decide_eq_false_2 _ Hnotin).
    rewrite bool_decide_eq_true_2; [done|]. apply elem_of_cons. by left.
  - rewrite handler_unhandled.
    assert (∀ st', unhandledRejections (handleProcessMessage bus e metrics p st')
                   = unhandledRejections st' ++
                     unhandledRejections (handleProcessMessage bus e metrics p empty_state))
      as Hframe.
    { intros st'. unfold handleProcessMessage, sendProcReply.
      destruct (_ && _); [|by rewrite app_nil_r].
      destruct (getCurrentProcId e); [|done].
      destruct (replyTo p); [by rewrite app_nil_r|done]. }
    rewrite (Hframe (handler r p st)), (Hframe st), handler_unhandled.
    apply (f_equal (fun b : bool => if b then _ else _)).
    apply bool_decide_ext. rewrite elem_of_cons. intuition congruence.
Qed.

(** X8.  A ['metrics-get'] request the responder cannot answer, because it
    names no [replyTo] or because the process does not know its own id, is
    not answered at all: nothing is sent, and the error thrown by
    [sendProcReply] ends as one unhandled rejection of the async listener.
    The requester is told nothing. *)
Theorem X8_unanswerable_request_is_dropped bus e metrics request st err :
  isClusterMode e = true → reachable e st →
  topic request = "metrics-get" → is_reply request = false →
  getCurrentProcId e = Throw err ∨
  ((∃ self, getCurrentProcId e = Ok self) ∧ replyTo request = None ∧
   err = ThrownError "ReplyTo is undefined") →
  sent (step e st (Message bus metrics request)) = sent st ∧
  unhandledRejections (step e st (Message bus metrics request))
    = unhandledRejections st ++ [err].
Proof.
  intros Hmode Hreach Htopic Hreq Hfail.
  pose proof (reachable_wf _ _ Hreach) as Hwf.
  pose proof (reachable_responder _ _ Hmode Hreach) as Hresp.
  simpl. split.
  - rewrite emit_message_sent, (bool_decide_eq_true_2 _ Hresp) by done.
    unfold responder_sends. rewrite Htopic, Hreq.
    destruct Hfail as [->|[[self ->] [-> _]]]; by rewrite app_nil_r.
  - unfold emit_message. destruct Hwf as [Hnd _].
    rewrite emit_fold_unhandled, (bool_decide_eq_true_2 _ Hresp) by done.
    unfold handleProcessMessage, sendProcReply. rewrite Htopic, Hreq.
    rewrite bool_decide_eq_true_2 by done. simpl.
    by destruct Hfail as [->|[[self ->] [-> ->]]].
Qed.

(** X9.  Request and reply compose across two workers.  Worker A (id [a])
    broadcasts on ['metrics-get'] to a list holding a process with the
    truthy id [b]: a request goes to [b].  Worker B, in cluster mode,
    answers that request with one reply addressed to [a].  And that reply,
    delivered to A before anything else, is collected by A's call. *)
Theorem X9_request_reply_round_trip
    busA eA answer ms stA stA1 r a procList proc b
    busB eB stB selfB metricsB busA' metricsA :
  reachable eA stA → getCurrentProcId eA = Ok a →
  getProcList eA answer = Ok procList →
  proc ∈ procList → pm_id proc = Some b → truthy_number b = true →
  awaitAllProcMessagesReplies busA eA answer "metrics-get" ms stA = (stA1, OfCall r) →
  isClusterMode eB = true → reachable eB stB → getCurrentProcId eB = Ok selfB →
  let request := request_packet a "metrics-get" in
  let reply := reply_packet selfB request metricsB in
  {| target := b; packet := request; send_err := busA b |} ∈ sent stA1 ∧
  sent (step eB stB (Message busB metricsB request))
    = sent stB ++ [{| target := a; packet := reply; send_err := busB a |}] ∧
  responses_of r (step eA stA1 (Message busA' metricsA reply)) = [reply].
Proof.
  intros HreachA Ha Hlist Hin Hb Htruthy Hcall HmodeB HreachB HselfB request reply.
  pose proof (reachable_wf _ _ HreachA) as HwfA.
  split_and!.
  - destruct (awaitAllProcMessagesReplies_cases busA eA answer "metrics-get" ms stA)
      as [(Hn & _)|(a' & procList' & Ha' & Hl & _ & _ & _ & Hs)];
      rewrite Hcall in *; simpl in *; [done|].
    assert (procList' = procList) as -> by congruence.
    assert (a' = a) as -> by congruence.
    rewrite Hs. apply elem_of_app. right.
    apply (list_elem_of_fmap_2
             (fun n => {| target := n; packet := request_packet a "metrics-get";
                          send_err := busA n |})).
    by eapply elem_of_targets.
  - simpl. rewrite emit_message_sent by (by eapply reachable_wf).
    rewrite bool_decide_eq_true_2 by (by apply (reachable_responder eB)).
    unfold responder_sends. simpl. by rewrite HselfB.
  - destruct (call_tracked _ _ _ _ _ _ _ _ [Message busA' metricsA reply] HwfA Hcall)
      as (_ & procList' & v & _ & _ & _ & _ & _ & _ & _ & Hrs & Htr).
    change (run eA [Message busA' metricsA reply] stA1)
      with (step eA stA1 (Message busA' metricsA reply)) in Hrs.
    rewrite Hrs. destruct Htr as [_ _ -> _ _].
    unfold replies, collected. simpl.
    by destruct (length procList') as [|[|n]].
Qed.

(** ** Every call in every reachable state *)

Lemma call_ok_fresh topic' n ms : call_ok (fresh_call topic' n ms, true).
Proof.
  unfold call_ok. simpl. split_and!.
  - constructor.
  - by destruct n.
  - lia.
  - left. eauto.
Qed.

Lemma call_ok_expire v : call_ok v → call_ok (expire v).
Proof.
  intros Hok. unfold expire.
  destruct (timeoutHandle (fst v)) eqn:Hh; [|done..].
  destruct Hok as (Hall & Hreg & Hlen & Hs). unfold call_ok. simpl. split_and!; try done.
  right. right. split; [done|].
  destruct Hs as [(_ & -> & _)|[(? & _)|(? & _)]]; [done|congruence..].
Qed.

Lemma call_ok_deliver p v : call_ok v → call_ok (deliver p v).
Proof.
  intros Hok. unfold deliver.
  destruct (snd v) eqn:Hsnd; [|done].
  destruct (matches (call_topic (fst v)) p) eqn:Hm; [|done].
  destruct Hok as (Hall & Hreg & Hlen & Hs). rewrite Hsnd in Hreg.
  symmetry in Hreg. apply negb_true_iff, andb_false_iff in Hreg.
  rewrite Nat.ltb_ge, Nat.eqb_neq in Hreg.
  destruct (Nat.eqb _ _) eqn:Hn.
  - apply Nat.eqb_eq in Hn. rewrite length_app in Hn. simpl in Hn.
    unfold call_ok. simpl. split_and!.
    + apply Forall_app. split; [done|]. by constructor.
    + rewrite length_app. simpl. rewrite (proj2 (Nat.eqb_eq _ _) Hn).
      by rewrite (proj2 (Nat.ltb_lt _ _)) by lia.
    + rewrite length_app. simpl. lia.
    + destruct Hs as [((ms & ->) & -> & _)|[(_ & _ & ?)|(-> & ->)]];
        [|congruence|]; simpl.
      * right. left. done.
      * right. right. done.
  - apply Nat.eqb_neq in Hn. rewrite length_app in Hn. simpl in Hn.
    unfold call_ok. simpl. split_and!.
    + apply Forall_app. split; [done|]. by constructor.
    + rewrite length_app. simpl. symmetry. apply negb_true_iff, andb_false_iff.
      right. by apply Nat.eqb_neq.
    + rewrite length_app. simpl. lia.
    + destruct Hs as [(? & ? & _)|[(_ & _ & ?)|?]];
        [by left|congruence|by right; right].
Qed.

Lemma call_ok_step r v ev : call_ok v → call_ok (call_step r v ev).
Proof.
  intros Hok. destruct ev as [bus metrics p|r'|]; simpl; [| |done].
  - by apply call_ok_deliver.
  - destruct (bool_decide _); [by apply call_ok_expire|done].
Qed.

Lemma step_length e st ev : length (calls st) ≤ length (calls (step e st ev)).
Proof.
  destruct ev as [bus metrics p|r|bus answer topic' ms]; simpl.
  - unfold emit_message. by rewrite emit_fold_length.
  - by rewrite timer_fires_length.
  - destruct (awaitAllProcMessagesReplies_cases bus e answer topic' ms st)
      as [(_ & _ & Hcs & _)|(self & procList & _ & _ & _ & _ & Hcs & _)];
      rewrite Hcs; [done|].
    rewrite length_app. lia.
Qed.

(** A call of the state after a step was there before, or is the fresh one
    the step created. *)
Lemma view_step_inv e st ev r v' :
  wf st → view r (step e st ev) = Some v' →
  (∃ v, view r st = Some v ∧ v' = call_step r v ev) ∨
  (∃ topic' n ms, v' = (fresh_call topic' n ms, true)).
Proof.
  intros Hwf Hv'. destruct (view r st) as [v|] eqn:Hv.
  - left. exists v. split; [done|].
    rewrite (view_step e st ev r v Hwf Hv) in Hv'. by injection Hv'.
  - right. assert (length (calls st) ≤ r) as Hge.
    { unfold view in Hv. destruct (calls st !! r) eqn:E; [done|].
      by apply lookup_ge_None. }
    assert (r < length (calls (step e st ev))) as Hlt.
    { unfold view in Hv'. destruct (calls (step e st ev) !! r) eqn:E; [|done].
      by apply lookup_lt_Some in E. }
    destruct ev as [bus metrics p|r'|bus answer topic' ms]; simpl in *.
    + unfold emit_message in Hlt. rewrite emit_fold_length in Hlt. lia.
    + rewrite timer_fires_length in Hlt. lia.
    + destruct (awaitAllProcMessagesReplies_cases bus e answer topic' ms st)
        as [(_ & _ & Hcs & _)|(self & procList & _ & _ & Hp & _ & Hcs & _)].
      * rewrite Hcs in Hlt. lia.
      * rewrite Hcs, length_app in Hlt. simpl in Hlt.
        assert (r = length (calls st)) as -> by lia.
        destruct (awaitAllProcMessagesReplies_fresh bus e answer topic' ms st _ Hp)
          as (_ & procList' & _ & _ & _ & Hfresh).
        rewrite Hfresh in Hv'. injection Hv' as <-. eauto.
Qed.

Lemma reachable_call_ok e st r v : reachable e st → view r st = Some v → call_ok v.
Proof.
  intros [evs ->]. revert r v. induction evs as [|ev evs IH] using rev_ind; intros r v Hv.
  - unfold view, init in Hv. by destruct (isClusterMode e).
  - rewrite run_snoc in Hv.
    apply view_step_inv in Hv as [(v0 & Hv0 & ->)|(topic' & n & ms & ->)];
      [|apply call_ok_fresh|apply run_wf, init_wf].
    by eapply call_ok_step, IH.
Qed.

(** X10.  In every state the event loop reaches, every call is in one of
    three conditions.  Pending: its timer is armed and its handler
    registered.  Fulfilled: with exactly [procLength] replies, the ones in
    [responses], its timer cleared and its handler removed.  Rejected: with
    ['timeout'] and nothing else, its timer fired.  All it has collected are
    replies on its topic, and its handler is registered unless it holds
    [procLength > 0] replies. *)
Theorem X10_call_invariant e st r c :
  reachable e st → calls st !! r = Some c →
  Forall (fun p => isReply p = Some true ∧ topic p = call_topic c) (responses c) ∧
  (L_handler r ∈ listeners st
   ↔ ¬ (0 < procLength c ∧ length (responses c) = procLength c)) ∧
  match promise c with
  | Pending => (∃ ms, timeoutHandle c = Armed ms) ∧ L_handler r ∈ listeners st
  | Fulfilled vs =>
      vs = responses c ∧ length vs = procLength c ∧
      timeoutHandle c = Cleared ∧ L_handler r ∉ listeners st
  | Rejected reason => reason = ThrownString "timeout" ∧ timeoutHandle c = Fired
  end.
Proof.
  intros Hreach Hc.
  assert (view r st = Some (c, registered r st)) as Hv by (unfold view; by rewrite Hc).
  destruct (reachable_call_ok _ _ _ _ Hreach Hv) as (Hall & Hreg & Hlen & Hs).
  simpl in *. unfold registered in *.
  assert (L_handler r ∈ listeners st
          ↔ ¬ (0 < procLength c ∧ length (responses c) = procLength c)) as Hiff.
  { destruct (bool_decide (L_handler r ∈ listeners st)) eqn:E.
    - apply bool_decide_eq_true in E. symmetry in Hreg.
      apply negb_true_iff, andb_false_iff in Hreg.
      rewrite Nat.ltb_ge, Nat.eqb_neq in Hreg. split; [lia|done].
    - apply bool_decide_eq_false in E. symmetry in Hreg.
      apply negb_false_iff, andb_true_iff in Hreg.
      rewrite Nat.ltb_lt, Nat.eqb_eq in Hreg. split; [done|]. intros Hn. lia. }
  split_and!; [|done|].
  - eapply Forall_impl; [exact Hall|]. intros p Hp. by apply matches_spec.
  - destruct Hs as [(Hms & -> & Hr)|[(Hh & -> & Hr)|(Hh & ->)]].
    + split; [done|]. by apply bool_decide_eq_true in Hr.
    + apply bool_decide_eq_false in Hr. split_and!; try done.
      destruct (decide (0 < procLength c ∧ length (responses c) = procLength c))
        as [[_ ?]|Hn]; [done|]. by apply Hiff in Hn.
    + done.
Qed.

(** ** Calls do not disturb each other *)

Lemma call_step_unrelated r v ev :
  unrelated (call_topic (fst v)) r ev → call_step r v ev = v.
Proof.
  destruct ev as [bus metrics p|r'|]; simpl; [| |done].
  - intros Hm. unfold deliver. rewrite Hm. by destruct (snd v).
  - intros Hne. by rewrite bool_decide_eq_false_2.
Qed.

(** X11.  The record of a call and the registration of its handler are
    untouched by everything that is not its own business: packets its
    handler does not keep (other topics, requests), the timers of other
    calls, and new calls, on whatever topic. *)
Theorem X11_calls_do_not_interfere e st r c evs :
  wf st → calls st !! r = Some c →
  Forall (unrelated (call_topic c) r) evs →
  calls (run e evs st) !! r = Some c ∧
  (L_handler r ∈ listeners (run e evs st) ↔ L_handler r ∈ listeners st).
Proof.
  intros Hwf Hc Hevs.
  assert (view r st = Some (c, registered r st)) as Hv by (unfold view; by rewrite Hc).
  pose proof (view_run e evs st r _ Hwf Hv) as Hrun.
  assert (fold_left (call_step r) evs (c, registered r st) = (c, registered r st)) as Hfix.
  { clear Hrun Hv. induction Hevs as [|ev evs Hev _ IH]; simpl; [done|].
    by rewrite call_step_unrelated. }
  rewrite Hfix in Hrun. unfold view in Hrun.
  destruct (calls (run e evs st) !! r) as [c'|]; simpl in Hrun; [|done].
  injection Hrun as -> Hreg. split; [done|].
  unfold registered in Hreg.
  rewrite <- (bool_decide_eq_true (L_handler r ∈ listeners (run e evs st))).
  rewrite <- (bool_decide_eq_true (L_handler r ∈ listeners st)).
  by rewrite Hreg.
Qed.

(** X12.  One inbound reply goes to every handler registered at that moment:
    each call on the reply's topic whose handler is still registered, be the
    call pending or already timed out, appends the packet to what it has
    collected.  Two calls outstanding on one topic both count the same
    reply. *)
Theorem X12_every_registered_call_counts_a_reply e st bus metrics p r c :
  wf st → calls st !! r = Some c → L_handler r ∈ listeners st →
  isReply p = Some true → topic p = call_topic c →
  responses_of r (step e st (Message bus metrics p)) = responses c ++ [p].
Proof.
  intros Hwf Hc Hin Hreply Htopic.
  assert (view r st = Some (c, true)) as Hv.
  { unfold view, registered. by rewrite Hc, bool_decide_eq_true_2. }
  pose proof (view_step e st (Message bus metrics p) r _ Hwf Hv) as Hstep.
  unfold responses_of. unfold view in Hstep.
  destruct (calls (step e st (Message bus metrics p)) !! r) as [c'|]; [|done].
  simpl in Hstep. unfold deliver in Hstep. simpl in Hstep.
  rewrite (proj2 (matches_spec (call_topic c) p)) in Hstep by done.
  destruct (Nat.eqb _ _); by injection Hstep as -> _.
Qed.

(** ** Outside cluster mode *)

(** X13.  Outside cluster mode the module registers nothing on [process]:
    whatever packets arrive and whatever timers fire, the state stays
    empty, so nothing is ever sent and no rejection goes unhandled. *)
Theorem X13_inert_outside_cluster_mode e evs :
  isClusterMode e = false →
  Forall (fun ev => is_Await ev = false) evs →
  run e evs (init e) = empty_state.
Proof.
  intros Hmode Hevs. unfold init. rewrite Hmode.
  induction Hevs as [|ev evs Hev _ IH]; simpl; [done|].
  destruct ev as [bus metrics p|r|]; simpl in *; [done|done|discriminate].
Qed.

(** ** Who a broadcast reaches *)

(** X14.  A broadcast only ever reaches processes that [pm2.list] reports
    under the worker's own name and as online: every send of
    [broadcastToAll] carries the packet it was given, to the truthy [pm_id]
    of such an entry, in list order; listeners and calls are left alone.
    When [pm2.list] reports an error the broadcast fails with it before
    anything is sent. *)
Theorem X14_broadcast_reaches_only_online_namesakes bus e err l p st :
  match err with
  | Some err' => broadcastToAll bus e (Some err', l) p st = Throw err'
  | None =>
      ∃ st' news,
        broadcastToAll bus e (None, l) p st
          = Ok (st', length (List.filter (same_name_and_online e) l)) ∧
        sent st' = sent st ++ news ∧
        listeners st' = listeners st ∧ calls st' = calls st ∧
        map target news = targets (List.filter (same_name_and_online e) l) ∧
        Forall (fun s =>
                  packet s = p ∧ truthy_number (target s) = true ∧
                  ∃ proc, proc ∈ l ∧ pm_id proc = Some (target s) ∧
                          name proc = env.name e ∧
                          ∃ pe, pm2_env proc = Some pe ∧ status pe = Some "online")
               news
  end.
Proof.
  destruct err as [err'|]; [done|].
  destruct (broadcastToAll bus e (None, l) p st) as [[st' n]|] eqn:Hb; [|done].
  pose proof Hb as Hb'.
  apply broadcastToAll_Ok in Hb' as (procList & Hl & -> & Hls & Hcs & _ & Hs).
  simpl in Hl. injection Hl as <-.
  eexists st', _. split_and!; [done|exact Hs|done|done| |].
  - rewrite map_map. simpl. apply map_id.
  - apply Forall_forall. intros s Hin.
    apply list_elem_of_fmap in Hin as (n & -> & Hn). simpl.
    unfold targets in Hn. apply list_elem_of_omap in Hn as (proc & Hproc & Hid).
    destruct (pm_id proc) as [m|] eqn:Hm; [|done].
    destruct (truthy_number m) eqn:Ht; [|done]. injection Hid as <-.
    apply list_elem_of_In, List.filter_In in Hproc as [Hproc Hkeep].
    unfold same_name_and_online in Hkeep.
    apply andb_true_iff in Hkeep as [Hname%bool_decide_eq_true Hon].
    destruct (pm2_env proc) as [pe|] eqn:Hpe; [|done].
    apply bool_decide_eq_true in Hon.
    split_and!; try done. exists proc. split_and!; try done.
    + by apply list_elem_of_In.
    + by exists pe.
Qed.

(** ** Sync timer *)

(** X15.  For a positive period and a clock that is not negative, the delay
    [timeSyncRun] asks for is the time to the next multiple of the period
    strictly after now: it lies in [(0, period]] (a whole period when now is
    on a boundary), [now + delay] is a multiple of the period, and no
    earlier instant after now is.  The handle is unref'ed and carries the
    callback. *)
Theorem X15_timeSyncRun_delay_to_next_boundary {A} (now period : Z) (callback : A) :
  (0 ≤ now)%Z → (0 < period)%Z →
  ∃ d, timer_delay (timeSyncRun (Num now) (Num period) callback) = Num d ∧
       (0 < d ≤ period)%Z ∧
       ((now + d) mod period = 0)%Z ∧
       (∀ d', (0 < d' < d)%Z → ((now + d') mod period ≠ 0)%Z) ∧
       timer_hasRef (timeSyncRun (Num now) (Num period) callback) = false ∧
       timer_callback (timeSyncRun (Num now) (Num period) callback) = callback.
Proof.
  intros Hnow Hperiod.
  exists (period - now mod period)%Z.
  pose proof (Z.mod_pos_bound now period Hperiod) as Hm.
  pose proof (Z.div_mod now period ltac:(lia)) as Hdiv.
  refine (conj _ (conj _ (conj _ (conj _ (conj eq_refl eq_refl))))).
  - unfold timeSyncRun, unref, setTimeout, js_sub, js_rem. simpl.
    rewrite (proj2 (Z.eqb_neq period 0)) by lia.
    by rewrite Z.rem_mod_nonneg by lia.
  - lia.
  - replace (now + (period - now mod period))%Z
      with ((now `div` period + 1) * period)%Z by lia.
    apply Z.mod_mul. lia.
  - intros d' Hd'.
    replace (now + d')%Z
      with ((now mod period + d') + (now `div` period) * period)%Z by lia.
    rewrite Z.mod_add by lia. rewrite Z.mod_small by lia. lia.
Qed.

(** * The theorems at work on the example cluster *)

Ltac no_such_event :=
  let H := fresh in
  intros H; apply list_elem_of_In in H; simpl in H; intuition discriminate.

Lemma C1_no_sibling_call_waits_for_the_timer_witness :
  let e := Example.worker "1" in
  let st1 := fst (awaitAllProcMessagesReplies Example.bus e (None, []) "metrics-get"
                    (Num 1000) (init e)) in
  wf (init e) ∧ getProcList e (None, []) = Ok [] ∧
  promise_of (run e [Message Example.bus Example.metrics (Example.reply_of 2)] st1)
             (OfCall 0) = Pending ∧
  promise_of (run e ([] ++ TimerFires 0 :: []) st1) (OfCall 0)
    = Rejected (ThrownString "timeout").
Proof.
  intros e st1.
  destruct (C1_no_sibling_call_waits_for_the_timer Example.bus e (None, []) "metrics-get"
              (Num 1000) (init e) st1 0 (init_wf e) eq_refl eq_refl) as (_ & H2 & H3).
  split_and!; [apply init_wf|reflexivity|apply H2|apply H3]; no_such_event.
Defined.

Lemma C4_timeout_is_all_or_nothing_witness :
  let e := Example.worker "1" in
  let answer : ListAnswer := (None, [Example.online 1; Example.online 2]) in
  let st1 := fst (awaitAllProcMessagesReplies Example.bus e answer "metrics-get"
                    (Num 1000) (init e)) in
  let evs := [Message Example.bus Example.metrics (Example.reply_of 1)] in
  let evs' := [Message Example.bus Example.metrics (Example.reply_of 2)] in
  wf (init e) ∧ (TimerFires 0 ∉ evs) ∧
  length (replies "metrics-get" evs) < length [Example.online 1; Example.online 2] ∧
  promise_of (run e (evs ++ TimerFires 0 :: evs') st1) (OfCall 0)
    = Rejected (ThrownString "timeout") ∧
  metrics_of (run e (evs ++ TimerFires 0 :: evs') st1) (AfterCall (OfCall 0))
    = Rejected (ThrownString "timeout").
Proof.
  intros e answer st1 evs evs'.
  assert (TimerFires 0 ∉ evs) as Hno by no_such_event.
  assert (length (replies "metrics-get" evs)
          < length [Example.online 1; Example.online 2]) as Hlt by (simpl; lia).
  split_and!; [apply init_wf|done|done|..];
    apply (C4_timeout_is_all_or_nothing Example.bus e answer "metrics-get" (Num 1000)
             (init e) st1 0 [Example.online 1; Example.online 2] evs evs'
             (init_wf e) eq_refl eq_refl Hno Hlt).
Defined.

Lemma C6_counted_iff_reply_on_topic_witness :
  let e := Example.worker "1" in
  let answer : ListAnswer := (None, [Example.online 1; Example.online 2]) in
  let st1 := fst (awaitAllProcMessagesReplies Example.bus e answer "metrics-get"
                    (Num 1000) (init e)) in
  wf (init e) ∧ promise_of (run e [] st1) (OfCall 0) = Pending ∧
  responses_of 0 (step e (run e [] st1)
                    (Message Example.bus Example.metrics (Example.reply_of 2)))
    = responses_of 0 (run e [] st1) ++ [Example.reply_of 2].
Proof.
  intros e answer st1.
  split_and!; [apply init_wf|reflexivity|].
  destruct (C6_counted_iff_reply_on_topic Example.bus e answer "metrics-get" (Num 1000)
              (init e) st1 0 [] Example.bus Example.metrics (Example.reply_of 2)
              (init_wf e) eq_refl eq_refl) as (Hkept & _ & _).
  apply Hkept. by split.
Defined.

Lemma C9_counted_but_not_sent_witness :
  let e := Example.worker "1" in
  let procList := [Example.online 0; Example.online 1] in
  let st1 := fst (awaitAllProcMessagesReplies Example.bus e (None, procList) "metrics-get"
                    (Num 1000) (init e)) in
  wf (init e) ∧ Example.online 0 ∈ procList ∧ falsy_pm_id (Example.online 0) ∧
  length (targets procList) < length procList ∧
  calls st1 !! 0 = Some (fresh_call "metrics-get" (length procList) (Num 1000)).
Proof.
  intros e procList st1.
  assert (Example.online 0 ∈ procList) as Hin by (apply elem_of_cons; by left).
  assert (falsy_pm_id (Example.online 0)) as Hfalsy by (by right).
  split_and!; [apply init_wf|done|done|..];
    apply (C9_counted_but_not_sent Example.bus e (None, procList) "metrics-get" (Num 1000)
             (init e) st1 0 procList (Example.online 0)
             (init_wf e) eq_refl Hin Hfalsy eq_refl).
Defined.

Lemma C8_single_process_returns_local_registry_witness :
  let e := {| env.exec_mode := None; env.pm_id := None; env.name := None |} in
  isClusterMode e = false ∧
  ∃ mp, getAggregateMetrics Example.bus e (None, []) None (init e) = (init e, mp) ∧
        sent (fst (getAggregateMetrics Example.bus e (None, []) None (init e)))
          = sent (init e) ∧
        ∀ st', metrics_of st' mp = Fulfilled client_register.
Proof.
  intros e. split; [reflexivity|].
  apply (C8_single_process_returns_local_registry Example.bus e (None, []) None (init e)).
  reflexivity.
Defined.

Lemma C3_reply_names_the_replying_process_witness :
  let e := Example.worker "2" in
  let request := request_packet (Num 1) "metrics-get" in
  ∃ st',
    sendProcReply Example.bus e request Example.metrics (init e) = Ok st' ∧
    ∃ self to reply,
      getCurrentProcId e = Ok self ∧ replyTo request = Some to ∧
      sent st' = sent (init e) ++
                 [{| target := to; packet := reply; send_err := Example.bus to |}] ∧
      originalProcId reply = self ∧
      topic reply = topic request ∧ replyTo reply = replyTo request ∧
      isReply reply = Some true ∧
      (originalProcId reply = originalProcId request ↔ self = originalProcId request).
Proof.
  intros e request. eexists. split; [reflexivity|].
  apply (C3_reply_names_the_replying_process Example.bus e request Example.metrics (init e)).
  reflexivity.
Defined.

Lemma C7_reply_needs_a_target_witness :
  let e := Example.worker "2" in
  let request :=
    {| topic := "metrics-get"; id := Num 1; data := JsObject []; isReply := Some false;
       replyTo := None; originalProcId := Num 1 |} in
  getCurrentProcId e = Ok (Num 2) ∧
  sendProcReply Example.bus e request Example.metrics (init e)
    = Throw (ThrownError "ReplyTo is undefined") ∧
  sent (handleProcessMessage Example.bus e Example.metrics request (init e)) = sent (init e).
Proof.
  intros e request. split; [reflexivity|].
  apply (C7_reply_needs_a_target Example.bus e (Num 2) request Example.metrics (init e)).
  reflexivity.
Defined.

Lemma C2_timeout_is_final_next_call_matches_by_topic_witness :
  let e := Example.worker "1" in
  let answer : ListAnswer := (None, [Example.online 1; Example.online 2]) in
  let st1 := fst (awaitAllProcMessagesReplies Example.bus e answer "metrics-get"
                    (Num 1000) (init e)) in
  let evs := [Message Example.bus Example.metrics (Example.reply_of 1); TimerFires 0] in
  let answer2 : ListAnswer := (None, [Example.online 1]) in
  let st2 := fst (awaitAllProcMessagesReplies Example.bus e answer2 "metrics-get"
                    (Num 1000) (run e evs st1)) in
  wf (init e) ∧
  promise_of (run e evs st1) (OfCall 0) = Rejected (ThrownString "timeout") ∧
  promise_of (run e (evs ++ [Message Example.bus Example.metrics (Example.reply_of 2)]) st1)
             (OfCall 0) = Rejected (ThrownString "timeout") ∧
  responses_of 1 (step e st2 (Message Example.bus Example.metrics (Example.reply_of 2)))
    = [Example.reply_of 2].
Proof.
  intros e answer st1 evs answer2 st2.
  destruct (C2_timeout_is_final_next_call_matches_by_topic
              Example.bus e answer "metrics-get" (Num 1000) (init e) st1 0 evs
              Example.bus answer2 (Num 1000) st2 1
              (init_wf e) eq_refl eq_refl eq_refl)
    as (Hfinal & _ & procList2 & _ & _ & Hlate).
  split_and!; [apply init_wf|reflexivity|apply Hfinal|by apply Hlate].
Defined.

Example originator_with_truthy_id_in_fan_out_worker_1 :
  let e := Example.worker "1" in
  let l := [Example.online 1; Example.online 2] in
  let st1 := fst (awaitAllProcMessagesReplies Example.bus e (None, l) "metrics-get"
                    (Num 1000) (init e)) in
  let request := request_packet (Num 1) "metrics-get" in
  isClusterMode e = true ∧ reachable e (init e) ∧ truthy_number (Num 1) = true ∧
  Example.online 1 ∈ l ∧
  ∃ procList,
    getProcList e (None, l) = Ok procList ∧
    Example.online 1 ∈ procList ∧
    calls st1 !! 0 = Some (fresh_call "metrics-get" (length procList) (Num 1000)) ∧
    {| target := Num 1; packet := request; send_err := Example.bus (Num 1) |} ∈ sent st1 ∧
    ∀ evs bus' metrics,
      sent (step e (run e evs st1) (Message bus' metrics request))
        = sent (run e evs st1) ++
          [{| target := Num 1; packet := reply_packet (Num 1) request metrics;
              send_err := bus' (Num 1) |}] ∧
      matches "metrics-get" (reply_packet (Num 1) request metrics) = true.
Proof.
  intros e l st1 request.
  assert (reachable e (init e)) as Hreach by (by exists []).
  assert (Example.online 1 ∈ l) as Hin by (apply elem_of_cons; by left).
  split_and!; [reflexivity|done|reflexivity|done|].
  apply (originator_with_truthy_id_in_fan_out Example.bus e l (Num 1000) (init e) st1 0
           (Num 1) (Example.online 1)
           eq_refl Hreach eq_refl eq_refl Hin eq_refl eq_refl eq_refl).
Defined.

(** A bus on which every send fails changes nothing in the count. *)
Example broadcast_on_a_dead_bus :
  let e := Example.worker "1" in
  let l := [Example.online 1; Example.online 2] in
  snd <$> match broadcastToAll Example.dead_bus e (None, l)
                  (request_packet (Num 1) "metrics-get") (init e) with
          | Ok res => Some res
          | Throw _ => None
          end = Some 2.
Proof. reflexivity. Qed.

(** ** The further properties on the example cluster *)

Lemma X1_fulfilled_with_first_replies_in_order_witness :
  let e := Example.worker "1" in
  let answer : ListAnswer := (None, [Example.online 1; Example.online 2]) in
  let st1 := fst (awaitAllProcMessagesReplies Example.bus e answer "metrics-get"
                    (Num 1000) (init e)) in
  let evs := [Message Example.bus Example.metrics (Example.reply_of 2);
              Message Example.bus Example.metrics (Example.reply_of 1)] in
  wf (init e) ∧ (TimerFires 0 ∉ evs) ∧
  promise_of (run e (evs ++ [TimerFires 0]) st1) (OfCall 0)
    = Fulfilled [Example.reply_of 2; Example.reply_of 1].
Proof.
  intros e answer st1 evs.
  assert (TimerFires 0 ∉ evs) as Hno by no_such_event.
  split_and!; [apply init_wf|done|].
  apply (X1_fulfilled_with_first_replies_in_order Example.bus e answer "metrics-get"
           (Num 1000) (init e) st1 0 [Example.online 1; Example.online 2] evs
           [TimerFires 0] (init_wf e) eq_refl eq_refl Hno).
  simpl. lia.
Defined.

Lemma X2_handler_registered_until_complete_witness :
  let e := Example.worker "1" in
  let answer : ListAnswer := (None, [Example.online 1; Example.online 2]) in
  let st1 := fst (awaitAllProcMessagesReplies Example.bus e answer "metrics-get"
                    (Num 1000) (init e)) in
  let evs := [Message Example.bus Example.metrics (Example.reply_of 1); TimerFires 0] in
  wf (init e) ∧ L_handler 0 ∈ listeners (run e evs st1) ∧
  responses_of 0 (run e evs st1) = [Example.reply_of 1].
Proof.
  intros e answer st1 evs.
  destruct (X2_handler_registered_until_complete Example.bus e answer "metrics-get"
              (Num 1000) (init e) st1 0 [Example.online 1; Example.online 2] evs
              (init_wf e) eq_refl eq_refl) as [Hreg Hrs].
  split_and!; [apply init_wf|by apply Hreg|exact Hrs].
Defined.

Lemma X3_executor_failure_leaves_promise_pending_witness :
  let e := {| env.exec_mode := Some "cluster_mode"; env.pm_id := None;
              env.name := Some "app" |} in
  let err := ThrownError "PM2 process id not found" in
  getCurrentProcId e = Throw err ∧
  awaitAllProcMessagesReplies Example.bus e (None, [Example.online 1]) "metrics-get"
    (Num 1000) (init e) = (unhandled err (init e), NeverSettled).
Proof.
  intros e err. split; [reflexivity|].
  apply (X3_executor_failure_leaves_promise_pending Example.bus e
           (None, [Example.online 1]) "metrics-get" (Num 1000) (init e) err).
  left. reflexivity.
Defined.

Lemma X4_settled_for_good_witness :
  let e := Example.worker "1" in
  let st := run e Example.expired (init e) in
  wf st ∧ promise_of st (OfCall 0) ≠ Pending ∧
  promise_of (run e Example.asked_again st) (OfCall 0) = promise_of st (OfCall 0).
Proof.
  intros e st.
  assert (wf st) as Hwf by apply run_wf, init_wf.
  assert (promise_of st (OfCall 0) ≠ Pending) as Hp by discriminate.
  split_and!; [done|done|].
  apply (X4_settled_for_good e st 0 Example.asked_again Hwf Hp).
Defined.

Lemma X5_aggregate_of_reply_data_witness :
  let e := Example.worker "1" in
  let answer : ListAnswer := (None, [Example.online 1]) in
  let res := getAggregateMetrics Example.bus e answer None (init e) in
  let evs := [Message Example.bus Example.metrics (Example.reply_of 1)] in
  wf (init e) ∧ isClusterMode e = true ∧
  calls (fst res) !! 0 = Some (fresh_call "metrics-get" 1 (Num 10000)) ∧
  metrics_of (run e evs (fst res)) (snd res)
    = Fulfilled (AggregatorRegistry_aggregate [JsArray []]).
Proof.
  intros e answer res evs.
  assert (TimerFires (length (calls (init e))) ∉ evs) as Hno by no_such_event.
  destruct (X5_aggregate_of_reply_data Example.bus e answer None (init e)
              [Example.online 1] (Num 1) evs (init_wf e) eq_refl eq_refl eq_refl Hno)
    as (_ & Hcall & Hmetrics).
  split_and!; [apply init_wf|reflexivity|exact Hcall|exact Hmetrics].
Defined.

Lemma X6_request_answered_exactly_once_witness :
  let e := Example.worker "2" in
  let request := request_packet (Num 1) "metrics-get" in
  isClusterMode e = true ∧ reachable e (init e) ∧
  ∃ reply,
    sent (step e (init e) (Message Example.bus Example.metrics request))
      = sent (init e) ++
        [{| target := Num 1; packet := reply; send_err := Example.bus (Num 1) |}] ∧
    topic reply = "metrics-get" ∧ isReply reply = Some true ∧
    replyTo reply = Some (Num 1) ∧ originalProcId reply = Num 2 ∧
    data reply = Example.metrics.
Proof.
  intros e request.
  assert (reachable e (init e)) as Hreach by (by exists []).
  split_and!; [reflexivity|done|].
  apply (X6_request_answered_exactly_once Example.bus e Example.metrics request (init e)
           (Num 2) (Num 1) eq_refl Hreach eq_refl eq_refl eq_refl eq_refl).
Defined.

Lemma X7_replies_are_never_answered_witness :
  let e := Example.worker "1" in
  wf (init e) ∧ is_reply (Example.reply_of 2) = true ∧
  sent (step e (init e) (Message Example.bus Example.metrics (Example.reply_of 2)))
    = sent (init e).
Proof.
  intros e. split_and!; [apply init_wf|reflexivity|].
  apply (X7_replies_are_never_answered Example.bus e Example.metrics
           (Example.reply_of 2) (init e) (init_wf e)).
  left. reflexivity.
Defined.

Lemma X8_unanswerable_request_is_dropped_witness :
  let e := Example.worker "2" in
  let request :=
    {| topic := "metrics-get"; id := Num 1; data := JsObject []; isReply := None;
       replyTo := None; originalProcId := Num 1 |} in
  isClusterMode e = true ∧ reachable e (init e) ∧
  sent (step e (init e) (Message Example.bus Example.metrics request)) = sent (init e) ∧
  unhandledRejections (step e (init e) (Message Example.bus Example.metrics request))
    = unhandledRejections (init e) ++ [ThrownError "ReplyTo is undefined"].
Proof.
  intros e request.
  assert (reachable e (init e)) as Hreach by (by exists []).
  split; [reflexivity|]. split; [done|].
  apply (X8_unanswerable_request_is_dropped Example.bus e Example.metrics request (init e)
           (ThrownError "ReplyTo is undefined") eq_refl Hreach eq_refl eq_refl).
  right. split; [by exists (Num 2)|by split].
Defined.

Lemma X9_request_reply_round_trip_witness :
  let eA := Example.worker "1" in
  let eB := Example.worker "2" in
  let answer : ListAnswer := (None, [Example.online 1; Example.online 2]) in
  let stA1 := fst (awaitAllProcMessagesReplies Example.bus eA answer "metrics-get"
                     (Num 1000) (init eA)) in
  let request := request_packet (Num 1) "metrics-get" in
  let reply := reply_packet (Num 2) request Example.metrics in
  reachable eA (init eA) ∧ reachable eB (init eB) ∧
  {| target := Num 2; packet := request; send_err := Example.bus (Num 2) |} ∈ sent stA1 ∧
  sent (step eB (init eB) (Message Example.bus Example.metrics request))
    = sent (init eB) ++
      [{| target := Num 1; packet := reply; send_err := Example.bus (Num 1) |}] ∧
  responses_of 0 (step eA stA1 (Message Example.bus Example.metrics reply)) = [reply].
Proof.
  intros eA eB answer stA1 request reply.
  assert (reachable eA (init eA)) as HreachA by (by exists []).
  assert (reachable eB (init eB)) as HreachB by (by exists []).
  assert (Example.online 2 ∈ [Example.online 1; Example.online 2]) as Hin.
  { apply elem_of_cons. right. apply elem_of_cons. by left. }
  split; [done|]. split; [done|].
  apply (X9_request_reply_round_trip Example.bus eA answer (Num 1000) (init eA) stA1 0
           (Num 1) [Example.online 1; Example.online 2] (Example.online 2) (Num 2)
           Example.bus eB (init eB) (Num 2) Example.metrics Example.bus Example.metrics
           HreachA eq_refl eq_refl Hin eq_refl eq_refl eq_refl eq_refl HreachB eq_refl).
Defined.

Lemma X10_call_invariant_witness :
  let e := Example.worker "1" in
  let st := run e Example.expired (init e) in
  let c := {| call_topic := "metrics-get"; procLength := 2;
              responses := [Example.reply_of 1]; timeoutHandle := Fired;
              promise := Rejected (ThrownString "timeout") |} in
  reachable e st ∧ calls st !! 0 = Some c ∧
  (L_handler 0 ∈ listeners st
   ↔ ¬ (0 < procLength c ∧ length (responses c) = procLength c)).
Proof.
  intros e st c.
  assert (reachable e st) as Hreach by (by exists Example.expired).
  split; [done|]. split; [reflexivity|].
  apply (X10_call_invariant e st 0 c Hreach eq_refl).
Defined.

Lemma X11_calls_do_not_interfere_witness :
  let e := Example.worker "1" in
  let answer : ListAnswer := (None, [Example.online 1; Example.online 2]) in
  let st1 := fst (awaitAllProcMessagesReplies Example.bus e answer "metrics-get"
                    (Num 1000) (init e)) in
  let c := fresh_call "metrics-get" 2 (Num 1000) in
  let evs := [Message Example.bus Example.metrics (request_packet (Num 2) "metrics-get");
              TimerFires 1;
              Await Example.bus answer "other-topic" (Num 5)] in
  wf st1 ∧ calls st1 !! 0 = Some c ∧ Forall (unrelated (call_topic c) 0) evs ∧
  calls (run e evs st1) !! 0 = Some c.
Proof.
  intros e answer st1 c evs.
  assert (wf st1) as Hwf by apply awaitAllProcMessagesReplies_wf, init_wf.
  assert (Forall (unrelated (call_topic c) 0) evs) as Hevs.
  { repeat constructor. simpl. discriminate. }
  split_and!; [done|reflexivity|done|].
  apply (X11_calls_do_not_interfere e st1 0 c evs Hwf eq_refl Hevs).
Defined.

Lemma X12_every_registered_call_counts_a_reply_witness :
  let e := Example.worker "1" in
  let st := run e Example.expired (init e) in
  let c := {| call_topic := "metrics-get"; procLength := 2;
              responses := [Example.reply_of 1]; timeoutHandle := Fired;
              promise := Rejected (ThrownString "timeout") |} in
  wf st ∧ calls st !! 0 = Some c ∧ L_handler 0 ∈ listeners st ∧
  responses_of 0 (step e st (Message Example.bus Example.metrics (Example.reply_of 2)))
    = [Example.reply_of 1; Example.reply_of 2].
Proof.
  intros e st c.
  assert (wf st) as Hwf by apply run_wf, init_wf.
  assert (L_handler 0 ∈ listeners st) as Hin.
  { apply elem_of_cons. right. apply elem_of_cons. by left. }
  split_and!; [done|reflexivity|done|].
  apply (X12_every_registered_call_counts_a_reply e st Example.bus Example.metrics
           (Example.reply_of 2) 0 c Hwf eq_refl Hin eq_refl eq_refl).
Defined.

Lemma X13_inert_outside_cluster_mode_witness :
  let e := {| env.exec_mode := Some "fork_mode"; env.pm_id := Some "0";
              env.name := Some "app" |} in
  let evs := [Message Example.bus Example.metrics (request_packet (Num 1) "metrics-get");
              TimerFires 0] in
  isClusterMode e = false ∧ run e evs (init e) = empty_state.
Proof.
  intros e evs. split; [reflexivity|].
  apply (X13_inert_outside_cluster_mode e evs eq_refl).
  by repeat constructor.
Defined.

Lemma X15_timeSyncRun_delay_to_next_boundary_witness :
  (0 ≤ 43200015)%Z ∧ (0 < 60000)%Z ∧
  ∃ d, timer_delay (timeSyncRun (Num 43200015) (Num 60000) tt) = Num d ∧
       (0 < d ≤ 60000)%Z ∧
       ((43200015 + d) mod 60000 = 0)%Z ∧
       (∀ d', (0 < d' < d)%Z → ((43200015 + d') mod 60000 ≠ 0)%Z) ∧
       timer_hasRef (timeSyncRun (Num 43200015) (Num 60000) tt) = false ∧
       timer_callback (timeSyncRun (Num 43200015) (Num 60000) tt) = tt.
Proof.
  split; [lia|]. split; [lia|].
  apply (X15_timeSyncRun_delay_to_next_boundary 43200015 60000 tt); lia.
Defined.
